(** * Person deduplication and temporal versioning

    A shallow embedding of [apps/persons/services.py]: the matching query
    [PersonService.find_matching_group], the versioning write
    [PersonService.create_person] and the temporal read
    [PersonService.get_person_as_of], over an explicit model of the four
    tables the service touches. *)

From stdpp Require Import base strings gmap list.
From Stdlib Require Import ZArith.

Open Scope string_scope.
Open Scope list_scope.

(** ** Values, errors and the two monads *)

(** A Python value of a snapshot, and an SQL value of a text column: [None]
    is Python's [None] and SQL's [NULL], [Some s] is the string [s].  Python
    compares strings code point by code point, which on UTF-8 text is
    equality of the byte strings Rocq holds.  [birth_date] is carried as the
    text of the date: the service only passes it along. *)
Abbreviation value := (option string).

Inductive error :=
| KeyError (key : string)   (* person_data[key] on a missing key *)
| TypeError                 (* a keyword argument that is no column of Person *)
| DoesNotExist.             (* PersonGroup.objects.get found no row *)

Inductive result (A : Type) :=
| Ok (a : A)
| Err (e : error).
Arguments Ok {A} a.
Arguments Err {A} e.

#[export] Instance result_ret : MRet result := λ A a, Ok a.
#[export] Instance result_bind : MBind result := λ A B f r,
  match r with
  | Ok a => f a
  | Err e => Err e
  end.

(** ** The tables *)

Module ChangeSet.
Record t := mk { id : Z; author : value; reason : value }.
End ChangeSet.

Module Person.
Record t := mk {
  id : Z;
  group_id : Z;
  change : option Z;
  last_name : value;
  first_name : value;
  middle_name : value;
  birth_date : value;
  gender : value;
  address : value;
  phone : value;
  email : value;
  created_at : Z;
  is_current : bool
}.

(** [UPDATE person SET is_current = b] on one row. *)
Definition set_is_current (b : bool) (p : t) : t :=
  mk (id p) (group_id p) (change p) (last_name p) (first_name p)
     (middle_name p) (birth_date p) (gender p) (address p) (phone p)
     (email p) (created_at p) b.
End Person.

Module PersonHistory.
Record t := mk {
  id : Z;
  group_id : Z;
  change : option Z;
  last_name : value;
  first_name : value;
  middle_name : value;
  birth_date : value;
  gender : value;
  address : value;
  phone : value;
  email : value;
  valid_from : Z;
  valid_to : Z
}.
End PersonHistory.

(** The database: each table is the list of its rows in insertion order, a
    [PersonGroup] row is its identifier, and every table has the sequence
    its next primary key is drawn from. *)
Record Store := mkStore {
  tbl_person_group : list Z;
  tbl_change_set : list ChangeSet.t;
  tbl_person : list Person.t;
  tbl_person_history : list PersonHistory.t;
  next_group_id : Z;
  next_change_id : Z;
  next_person_id : Z;
  next_history_id : Z
}.

Definition empty_store : Store := mkStore [] [] [] [] 1 1 1 1.

(** A unit of work against the database.  An [Err] carries no store: the
    caller keeps its own, which is the rollback of [transaction.atomic].
    (A database that does not roll its sequences back leaves gaps in the
    keys; [keys_ok] below allows them.) *)
Definition M (A : Type) : Type := Store → result (A * Store).

#[export] Instance M_ret : MRet M := λ A a db, Ok (a, db).
#[export] Instance M_bind : MBind M := λ A B f m db,
  match m db with
  | Ok (a, db') => f a db'
  | Err e => Err e
  end.

(** A read-only query as a unit of work. *)
Definition query {A} (q : Store → result A) : M A := λ db,
  match q db with
  | Ok a => Ok (a, db)
  | Err e => Err e
  end.

(** ** Dictionaries and query sets *)

(** [person_data[key]] *)
Definition item (person_data : gmap string value) (key : string) : result value :=
  match person_data !! key with
  | Some v => Ok v
  | None => Err (KeyError key)
  end.

(** [person_data.get(key)] *)
Definition get (person_data : gmap string value) (key : string) : value :=
  default None (person_data !! key).

(** Truth value of [None] or a string: [if phone:]. *)
Definition truthy (v : value) : bool :=
  match v with
  | Some s => negb (bool_decide (s = ""))
  | None => false
  end.

(** The lookup [column=v] of a filter or a [Q]: Django turns a comparison
    with [None] into [IS NULL], and [NULL] equals no string. *)
Definition exact (column v : value) : bool := bool_decide (column = v).

(** [column__isnull=True] *)
Definition isnull (column : value) : bool := bool_decide (column = None).

Section order_by.
Context {A : Type} (key : A → Z).

Fixpoint insert_by (x : A) (l : list A) : list A :=
  match l with
  | [] => [x]
  | y :: l' => if (key x <=? key y)%Z then x :: l else y :: insert_by x l'
  end.

(** [.order_by(key)], ascending; rows with equal keys keep the order of
    the table (the database promises none). *)
Fixpoint order_by (l : list A) : list A :=
  match l with
  | [] => []
  | x :: l' => insert_by x (order_by l')
  end.
End order_by.

(** [.first()] *)
Definition first {A} (qs : list A) : option A := head qs.

(** ** find_matching_group *)

Definition male : value := Some "М".

(** The query set [qs.filter(contact_q)] that [find_matching_group] builds
    (lines 28-52), before it is ordered. *)
Definition matching_persons (person_data : gmap string value) (db : Store)
  : result (list Person.t) :=
  gender ← item person_data "gender";
  first_name ← item person_data "first_name";
  let qs := List.filter (λ p, Person.is_current p
                              && exact (Person.gender p) gender
                              && exact (Person.first_name p) first_name)
                        (tbl_person db) in
  let middle_name := get person_data "middle_name" in
  let qs := match middle_name with
            | None => List.filter (λ p, isnull (Person.middle_name p)) qs
            | Some _ => List.filter (λ p, exact (Person.middle_name p) middle_name) qs
            end in
  qs ← (if bool_decide (gender = male)
        then last_name ← item person_data "last_name";
             mret (List.filter (λ p, exact (Person.last_name p) last_name) qs)
        else mret qs);
  address ← item person_data "address";
  let contact_q := λ p, exact (Person.address p) address in
  let phone := get person_data "phone" in
  let email := get person_data "email" in
  let contact_q := if truthy phone
                   then λ p, contact_q p || exact (Person.phone p) phone
                   else contact_q in
  let contact_q := if truthy email
                   then λ p, contact_q p || exact (Person.email p) email
                   else contact_q in
  mret (List.filter contact_q qs).

Definition find_matching_group (person_data : gmap string value) (db : Store)
  : result (option Z) :=
  qs ← matching_persons person_data db;
  let group_id := first (Person.group_id <$> order_by Person.group_id qs) in
  mret group_id.

(** ** create_person *)

(** [ChangeSet.objects.create(author=author, reason=reason)] *)
Definition create_change_set (author reason : value) : M ChangeSet.t := λ db,
  let change := ChangeSet.mk (next_change_id db) author reason in
  Ok (change,
      mkStore (tbl_person_group db) (tbl_change_set db ++ [change]) (tbl_person db)
              (tbl_person_history db) (next_group_id db) (next_change_id db + 1)
              (next_person_id db) (next_history_id db)).

Module PersonGroup.
(** [PersonGroup.objects.get(id=group_id)] *)
Definition get (group_id : Z) : M Z := λ db,
  if bool_decide (group_id ∈ tbl_person_group db)
  then Ok (group_id, db)
  else Err DoesNotExist.

(** [PersonGroup.objects.create()] *)
Definition create : M Z := λ db,
  let group := next_group_id db in
  Ok (group,
      mkStore (tbl_person_group db ++ [group]) (tbl_change_set db) (tbl_person db)
              (tbl_person_history db) (next_group_id db + 1) (next_change_id db)
              (next_person_id db) (next_history_id db)).
End PersonGroup.

(** The attribute columns of [Person], the only keys of a snapshot. *)
Definition attribute_columns : gset string :=
  {[ "last_name"; "first_name"; "middle_name"; "birth_date";
     "gender"; "address"; "phone"; "email" ]}.

(** [INSERT INTO person_history] *)
Definition insert_history (row : Z → PersonHistory.t) : M unit := λ db,
  Ok (tt,
      mkStore (tbl_person_group db) (tbl_change_set db) (tbl_person db)
              (tbl_person_history db ++ [row (next_history_id db)])
              (next_group_id db) (next_change_id db) (next_person_id db)
              (next_history_id db + 1)).

(** [UPDATE person SET is_current = ... WHERE id = ...], on one row. *)
Definition update_is_current (id : Z) (is_current : bool) (p : Person.t) : Person.t :=
  if bool_decide (Person.id p = id)
  then Person.set_is_current is_current p
  else p.

(** [prev.save(update_fields=['is_current'])]: the update of the row whose
    primary key is [id]. *)
Definition save_is_current (id : Z) (is_current : bool) : M unit := λ db,
  Ok (tt,
      mkStore (tbl_person_group db) (tbl_change_set db)
              (update_is_current id is_current <$> tbl_person db)
              (tbl_person_history db) (next_group_id db) (next_change_id db)
              (next_person_id db) (next_history_id db)).

Section columns.
(** The value a column of [Person] takes when the snapshot leaves it
    out.  The column declarations are in [models.py], which is not among
    the sources, so the defaults are a parameter of the development. *)
Variable column_default : string → value.

(** The row [Person(group=group, change=change_set, created_at=now_ts,
    is_current=True, **person_data)] under the primary key [id]. *)
Definition new_person (person_data : gmap string value) (id group change : Z)
    (now_ts : Z) : Person.t :=
  let column key := default (column_default key) (person_data !! key) in
  Person.mk id group (Some change)
            (column "last_name") (column "first_name")
            (column "middle_name") (column "birth_date")
            (column "gender") (column "address") (column "phone")
            (column "email") now_ts true.

(** [Person.objects.create(group=group, change=change_set,
    created_at=now_ts, is_current=True, **person_data)], for a snapshot:
    a bundle of the eight attributes.  On a key that is none of them the
    model raises [TypeError].  That is what the call does for a key it
    already passes (group, change, created_at, is_current) and for a key
    that names no column.  It is not what the call does for a key that
    names another column of the table (id, pk, group_id, change_id):
    Django accepts that one and stores the row under it.  Nor does the
    model check that the change set is a row of its table, which the
    database does.  The model is the code on the inputs that
    [well_formed] below describes, and the statements that depend on the
    difference take it as a hypothesis. *)
Definition insert_person (group : Z) (change_set : ChangeSet.t) (now_ts : Z)
    (person_data : gmap string value) : M Person.t := λ db,
  if bool_decide (dom person_data ⊆ attribute_columns) then
    let person :=
      new_person person_data (next_person_id db) group
                 (ChangeSet.id change_set) now_ts in
    Ok (person,
        mkStore (tbl_person_group db) (tbl_change_set db) (tbl_person db ++ [person])
                (tbl_person_history db) (next_group_id db) (next_change_id db)
                (next_person_id db + 1) (next_history_id db))
  else Err TypeError.

(** [create_person], with the reading of the clock, [timezone.now()], as
    the argument [now_ts]. *)
Definition create_person (person_data : gmap string value)
    (change_set : option ChangeSet.t) (now_ts : Z) : M Person.t :=
  change_set ← match change_set with
               | None => create_change_set (Some "system")
                                           (Some "API person creation")
               | Some change_set => mret change_set
               end;
  group_id ← query (find_matching_group person_data);
  group ← match group_id with
          | Some group_id =>
              if bool_decide (group_id ≠ 0%Z)
              then PersonGroup.get group_id
              else PersonGroup.create
          | None => PersonGroup.create
          end;
  person ← insert_person group change_set now_ts person_data;
  prev ← query (λ db,
    Ok (first
          (order_by (λ p, - Person.created_at p)%Z
             (List.filter
                (λ p, bool_decide (Person.group_id p = group)
                      && Person.is_current p
                      && negb (bool_decide (Person.id p = Person.id person)))
                (tbl_person db)))));
  match prev with
  | Some prev =>
      insert_history (λ id,
        PersonHistory.mk id group
          (match Person.change person with
           | Some change => Some change
           | None => Person.change prev
           end)
          (Person.last_name prev) (Person.first_name prev)
          (Person.middle_name prev) (Person.birth_date prev)
          (Person.gender prev) (Person.address prev) (Person.phone prev)
          (Person.email prev) (Person.created_at prev) now_ts);;
      save_is_current (Person.id prev) false
  | None => mret tt
  end;;
  mret person.

(** One call of [create_person]. *)
Record call := mkCall {
  call_data : gmap string value;
  call_change_set : option ChangeSet.t;
  call_now : Z
}.

(** A sequence of calls, one after the other.  A call that raises is
    rolled back and leaves the database as it found it. *)
Fixpoint apply_all (calls : list call) (db : Store) : Store :=
  match calls with
  | [] => db
  | c :: calls =>
      match create_person (call_data c) (call_change_set c) (call_now c) db with
      | Ok (_, db') => apply_all calls db'
      | Err _ => apply_all calls db
      end
  end.
End columns.

(** ** get_person_as_of *)

Module PersonDict.
(** The dictionary [get_person_as_of] returns. *)
Record t := mk {
  group_id : Z;
  last_name : value;
  first_name : value;
  middle_name : value;
  birth_date : value;
  gender : value;
  address : value;
  phone : value;
  email : value
}.
End PersonDict.

Definition get_person_as_of (group_id timestamp : Z) (db : Store)
  : option PersonDict.t :=
  let current :=
    first (order_by (λ p, - Person.created_at p)%Z
             (List.filter
                (λ p, bool_decide (Person.group_id p = group_id)
                      && Person.is_current p
                      && (Person.created_at p <=? timestamp)%Z)
                (tbl_person db))) in
  match current with
  | Some current =>
      Some (PersonDict.mk (Person.group_id current)
              (Person.last_name current) (Person.first_name current)
              (Person.middle_name current) (Person.birth_date current)
              (Person.gender current) (Person.address current)
              (Person.phone current) (Person.email current))
  | None =>
      let hist :=
        first (order_by (λ h, - PersonHistory.valid_from h)%Z
                 (List.filter
                    (λ h, bool_decide (PersonHistory.group_id h = group_id)
                          && (PersonHistory.valid_from h <=? timestamp)%Z
                          && (timestamp <? PersonHistory.valid_to h)%Z)
                    (tbl_person_history db))) in
      match hist with
      | Some hist =>
          Some (PersonDict.mk (PersonHistory.group_id hist)
                  (PersonHistory.last_name hist) (PersonHistory.first_name hist)
                  (PersonHistory.middle_name hist) (PersonHistory.birth_date hist)
                  (PersonHistory.gender hist) (PersonHistory.address hist)
                  (PersonHistory.phone hist) (PersonHistory.email hist))
      | None => None
      end
  end.

(** ** search_persons_vitrine, get_all_current_persons, get_person_history *)

(** [search_params], by the types of its values: the text filters under
    their keys, and the two integers of the page, each given or not. *)
Record SearchParams := mkSearchParams {
  filters : gmap string value;
  limit : option Z;
  offset : option Z
}.

(** The outcome of [qs[start:stop]]: the rows, or the exception Django
    raises on a negative bound. *)
Inductive sliced (A : Type) :=
| Rows (rows : list A)
| NegativeIndexing.
Arguments Rows {A} rows.
Arguments NegativeIndexing {A}.

(** [qs[start:stop]] *)
Definition slice {A} (start stop : Z) (qs : list A) : sliced A :=
  if bool_decide (start < 0 ∨ stop < 0)%Z
  then NegativeIndexing
  else Rows (drop (Z.to_nat start) (take (Z.to_nat stop) qs)).

Definition search_persons_vitrine (search_params : SearchParams) (db : Store)
  : sliced PersonDict.t :=
  let search_params_get key := get (filters search_params) key in
  let qs := List.filter Person.is_current (tbl_person db) in
  let qs := if truthy (search_params_get "last_name")
            then List.filter (λ p, exact (Person.last_name p)
                                         (search_params_get "last_name")) qs
            else qs in
  let qs := if truthy (search_params_get "first_name")
            then List.filter (λ p, exact (Person.first_name p)
                                         (search_params_get "first_name")) qs
            else qs in
  let qs := if negb (bool_decide (search_params_get "middle_name" = None))
               && negb (bool_decide (search_params_get "middle_name" = Some ""))
            then List.filter (λ p, exact (Person.middle_name p)
                                         (search_params_get "middle_name")) qs
            else qs in
  let qs := if truthy (search_params_get "address")
            then List.filter (λ p, exact (Person.address p)
                                         (search_params_get "address")) qs
            else qs in
  let qs := if truthy (search_params_get "phone")
            then List.filter (λ p, exact (Person.phone p)
                                         (search_params_get "phone")) qs
            else qs in
  let qs := if truthy (search_params_get "email")
            then List.filter (λ p, exact (Person.email p)
                                         (search_params_get "email")) qs
            else qs in
  let limit := default 100%Z (limit search_params) in
  let offset := default 0%Z (offset search_params) in
  match slice offset (offset + limit) (order_by Person.group_id qs) with
  | Rows qs =>
      Rows ((λ p, PersonDict.mk (Person.group_id p) (Person.last_name p)
                    (Person.first_name p) (Person.middle_name p)
                    (Person.birth_date p) (Person.gender p) (Person.address p)
                    (Person.phone p) (Person.email p)) <$> qs)
  | NegativeIndexing => NegativeIndexing
  end.

(** [Person.objects.filter(is_current=True)]; [select_related] only joins
    the rows the foreign keys point to. *)
Definition get_all_current_persons (db : Store) : list Person.t :=
  List.filter Person.is_current (tbl_person db).

Definition get_person_history (group_id : Z) (db : Store)
  : list PersonHistory.t :=
  order_by PersonHistory.valid_from
    (List.filter (λ h, bool_decide (PersonHistory.group_id h = group_id))
                 (tbl_person_history db)).

(** ** DatabaseInitService.execute_sql_script *)

(** The text of a script is a Python [str], the list of its code points;
    [codes] gives the code points of an ASCII literal. *)
Definition codes (s : string) : list N :=
  Ascii.N_of_ascii <$> String.list_ascii_of_string s.

(** The white space [str.strip()] removes. *)
Definition isspace (c : N) : bool :=
  ((9 <=? c) && (c <=? 13) || (28 <=? c) && (c <=? 32)
   || (c =? 133) || (c =? 160) || (c =? 5760)
   || (8192 <=? c) && (c <=? 8202)
   || (c =? 8232) || (c =? 8233) || (c =? 8239) || (c =? 8287)
   || (c =? 12288))%N.

Fixpoint lstrip (s : list N) : list N :=
  match s with
  | [] => []
  | c :: s' => if isspace c then lstrip s' else s
  end.

(** [s.strip()] *)
Definition strip (s : list N) : list N := rev (lstrip (rev (lstrip s))).

(** [s.split(sep)], for a separator of one character. *)
Fixpoint split (sep : N) (s : list N) : list (list N) :=
  match s with
  | [] => [[]]
  | c :: s' =>
      if (c =? sep)%N then [] :: split sep s'
      else match split sep s' with
           | [] => [[c]]
           | piece :: pieces => (c :: piece) :: pieces
           end
  end.

(** [s.startswith(prefix)] *)
Fixpoint startswith (prefix s : list N) : bool :=
  match prefix, s with
  | [], _ => true
  | _ :: _, [] => false
  | c :: prefix', d :: s' => (c =? d)%N && startswith prefix' s'
  end.

Section execute_sql_script.
(** The connection is not part of the sources: a cursor is any state,
    [cursor.execute] any step on it that may raise, and [str_of] the text
    of what it raises. *)
Context {Cursor Exception : Type}.
Variable cursor_execute : list N → Cursor → option Exception * Cursor.
Variable str_of : Exception → list N.

(** The loop over the statements; [stdout] collects the lines printed. *)
Fixpoint execute_statements (statements : list (list N)) (cursor : Cursor)
    (stdout : list (list N)) : option Exception * Cursor * list (list N) :=
  match statements with
  | [] => (None, cursor, stdout)
  | statement :: statements' =>
      let statement := strip statement in
      if negb (bool_decide (statement = []))
         && negb (startswith (codes "--") statement)
      then
        match cursor_execute statement cursor with
        | (None, cursor) => execute_statements statements' cursor stdout
        | (Some e, cursor) =>
            (Some e, cursor,
             stdout
             ++ [codes "Error executing statement: " ++ take 100 statement
                 ++ codes "...";
                 codes "Error: " ++ str_of e])
        end
      else execute_statements statements' cursor stdout
  end.

Definition execute_sql_script (sql_content : list N) (cursor : Cursor)
    (stdout : list (list N)) : option Exception * Cursor * list (list N) :=
  let statements := split 59 sql_content in
  execute_statements statements cursor stdout.
End execute_sql_script.

(** ** The matching predicate, in the words of the specification *)

(** Conditions 1 to 3: a live record of the same gender and first name. *)
Definition same_person_condition (person_data : gmap string value) (p : Person.t) : Prop :=
  Person.is_current p = true
  ∧ person_data !! "gender" = Some (Person.gender p)
  ∧ person_data !! "first_name" = Some (Person.first_name p).

(** Condition 4: the middle names are equal, absent equal to absent only. *)
Definition middle_name_condition (person_data : gmap string value) (p : Person.t) : Prop :=
  Person.middle_name p = get person_data "middle_name".

(** Condition 5: for a male snapshot the surnames are equal. *)
Definition surname_condition (person_data : gmap string value) (p : Person.t) : Prop :=
  person_data !! "gender" = Some male →
  person_data !! "last_name" = Some (Person.last_name p).

(** Condition 6: one contact channel is equal; the snapshot always names an
    address, and its phone and email count when they are not empty. *)
Definition contact_condition (person_data : gmap string value) (p : Person.t) : Prop :=
  is_Some (person_data !! "address")
  ∧ (person_data !! "address" = Some (Person.address p)
     ∨ (truthy (get person_data "phone") = true
        ∧ Person.phone p = get person_data "phone")
     ∨ (truthy (get person_data "email") = true
        ∧ Person.email p = get person_data "email")).

Definition matching_predicate (person_data : gmap string value) (p : Person.t) : Prop :=
  same_person_condition person_data p
  ∧ middle_name_condition person_data p
  ∧ surname_condition person_data p
  ∧ contact_condition person_data p.

(** The keys [find_matching_group] indexes: without them it raises. *)
Definition indexed_keys (person_data : gmap string value) : Prop :=
  is_Some (person_data !! "gender")
  ∧ is_Some (person_data !! "first_name")
  ∧ (person_data !! "gender" = Some male → is_Some (person_data !! "last_name"))
  ∧ is_Some (person_data !! "address").

(** ** What the database guarantees, and the invariant of the writes *)

(** The live records of a group. *)
Definition current_of (group_id : Z) (db : Store) : list Person.t :=
  List.filter (λ p, bool_decide (Person.group_id p = group_id) && Person.is_current p)
              (tbl_person db).

(** Primary keys come from the sequence and are unique; the group of a
    person is a row of [PersonGroup]. *)
Record keys_ok (db : Store) : Prop := {
  person_id_lt : ∀ p, p ∈ tbl_person db → (Person.id p < next_person_id db)%Z;
  person_id_nodup : NoDup (Person.id <$> tbl_person db);
  person_group_fk : ∀ p, p ∈ tbl_person db → Person.group_id p ∈ tbl_person_group db;
  group_id_lt : ∀ g, g ∈ tbl_person_group db → (g < next_group_id db)%Z
}.

Definition one_current (db : Store) : Prop :=
  ∀ p q, p ∈ tbl_person db → q ∈ tbl_person db →
         Person.is_current p = true → Person.is_current q = true →
         Person.group_id p = Person.group_id q → Person.id p = Person.id q.

Definition store_inv (db : Store) : Prop := keys_ok db ∧ one_current db.

(** The row carries the attributes the snapshot has. *)
Definition carries (person_data : gmap string value) (p : Person.t) : Prop :=
  ∀ v,
    (person_data !! "last_name" = Some v → Person.last_name p = v)
    ∧ (person_data !! "first_name" = Some v → Person.first_name p = v)
    ∧ (person_data !! "middle_name" = Some v → Person.middle_name p = v)
    ∧ (person_data !! "birth_date" = Some v → Person.birth_date p = v)
    ∧ (person_data !! "gender" = Some v → Person.gender p = v)
    ∧ (person_data !! "address" = Some v → Person.address p = v)
    ∧ (person_data !! "phone" = Some v → Person.phone p = v)
    ∧ (person_data !! "email" = Some v → Person.email p = v).

(** The history record is a copy of the attributes of the row. *)
Definition copies (prev : Person.t) (h : PersonHistory.t) : Prop :=
  PersonHistory.last_name h = Person.last_name prev
  ∧ PersonHistory.first_name h = Person.first_name prev
  ∧ PersonHistory.middle_name h = Person.middle_name prev
  ∧ PersonHistory.birth_date h = Person.birth_date prev
  ∧ PersonHistory.gender h = Person.gender prev
  ∧ PersonHistory.address h = Person.address prev
  ∧ PersonHistory.phone h = Person.phone prev
  ∧ PersonHistory.email h = Person.email prev.

(** A live record of the group, created at or before the timestamp. *)
Definition current_at (group_id timestamp : Z) (p : Person.t) : Prop :=
  Person.group_id p = group_id
  ∧ Person.is_current p = true
  ∧ (Person.created_at p ≤ timestamp)%Z.

(** A history record of the group whose interval holds the timestamp. *)
Definition covers (group_id timestamp : Z) (h : PersonHistory.t) : Prop :=
  PersonHistory.group_id h = group_id
  ∧ (PersonHistory.valid_from h ≤ timestamp)%Z
  ∧ (timestamp < PersonHistory.valid_to h)%Z.

(** The dictionaries [get_person_as_of] builds from a row. *)
Definition dict_of_person (p : Person.t) : PersonDict.t :=
  PersonDict.mk (Person.group_id p) (Person.last_name p) (Person.first_name p)
    (Person.middle_name p) (Person.birth_date p) (Person.gender p)
    (Person.address p) (Person.phone p) (Person.email p).

Definition dict_of_history (h : PersonHistory.t) : PersonDict.t :=
  PersonDict.mk (PersonHistory.group_id h) (PersonHistory.last_name h)
    (PersonHistory.first_name h) (PersonHistory.middle_name h)
    (PersonHistory.birth_date h) (PersonHistory.gender h)
    (PersonHistory.address h) (PersonHistory.phone h) (PersonHistory.email h).

(** Every group is listed once and has a live record. *)
Definition every_group_live (db : Store) : Prop :=
  NoDup (tbl_person_group db)
  ∧ ∀ g, g ∈ tbl_person_group db →
         ∃ p, p ∈ tbl_person db ∧ Person.group_id p = g
              ∧ Person.is_current p = true.

(** The history records of a group, in the order of the table. *)
Definition history_of (group_id : Z) (db : Store) : list PersonHistory.t :=
  List.filter (λ h, bool_decide (PersonHistory.group_id h = group_id))
              (tbl_person_history db).

(** The intervals follow one another without a gap, and the last one ends
    at [last]. *)
Fixpoint chained (l : list PersonHistory.t) (last : Z) : Prop :=
  match l with
  | [] => True
  | h :: l' =>
      (PersonHistory.valid_from h ≤ PersonHistory.valid_to h)%Z
      ∧ PersonHistory.valid_to h
        = match l' with
          | [] => last
          | h' :: _ => PersonHistory.valid_from h'
          end
      ∧ chained l' last
  end.

(** A group with history has a live record, at whose creation the chain of
    its history ends. *)
Definition temporal_inv (db : Store) : Prop :=
  ∀ g, history_of g db = []
       ∨ ∃ p, p ∈ current_of g db
              ∧ chained (history_of g db) (Person.created_at p).

(** No row was created after [now]. *)
Definition clock_bound (now : Z) (db : Store) : Prop :=
  ∀ p, p ∈ tbl_person db → (Person.created_at p ≤ now)%Z.

(** The clock readings of the calls start at or after [now] and do not
    go back. *)
Fixpoint clock_from (now : Z) (calls : list call) : Prop :=
  match calls with
  | [] => True
  | c :: calls' => (now ≤ call_now c)%Z ∧ clock_from (call_now c) calls'
  end.

(** The clock readings of the calls start after [now] and go forward. *)
Fixpoint clock_strictly_from (now : Z) (calls : list call) : Prop :=
  match calls with
  | [] => True
  | c :: calls' =>
      (now < call_now c)%Z ∧ clock_strictly_from (call_now c) calls'
  end.

(** No history record holds for an empty interval. *)
Definition intervals_open (db : Store) : Prop :=
  ∀ h, h ∈ tbl_person_history db →
       (PersonHistory.valid_from h < PersonHistory.valid_to h)%Z.

(** ** The inputs of the write

    [create_person] is written for a snapshot, whose keys are among the
    eight attributes, and for a change set that is a row of its table.
    These are the inputs on which [insert_person] is
    [Person.objects.create]. *)

(** The change set, when one is passed, is a row of the table: the
    foreign key of the new row has a target. *)
Definition recorded (change_set : option ChangeSet.t) (db : Store) : Prop :=
  match change_set with
  | Some change_set =>
      ChangeSet.id change_set ∈ ChangeSet.id <$> tbl_change_set db
  | None => True
  end.

(** The arguments of one call: a snapshot of attribute keys, and a change
    set of the table or none. *)
Definition well_formed (person_data : gmap string value)
    (change_set : option ChangeSet.t) (db : Store) : Prop :=
  dom person_data ⊆ attribute_columns ∧ recorded change_set db.

(** Every call of the sequence is well formed on the database it meets. *)
Fixpoint well_formed_calls (column_default : string → value)
    (calls : list call) (db : Store) : Prop :=
  match calls with
  | [] => True
  | c :: calls' =>
      well_formed (call_data c) (call_change_set c) db
      ∧ well_formed_calls column_default calls'
          (apply_all column_default [c] db)
  end.

(** A filter of the search counts when it is given and not empty. *)
Definition passes (filter column : value) : bool :=
  if truthy filter then exact column filter else true.

(** The row is live and equals every filter that counts. *)
Definition search_selects (search_params : SearchParams) (p : Person.t) : bool :=
  Person.is_current p
  && passes (get (filters search_params) "last_name") (Person.last_name p)
  && passes (get (filters search_params) "first_name") (Person.first_name p)
  && passes (get (filters search_params) "middle_name") (Person.middle_name p)
  && passes (get (filters search_params) "address") (Person.address p)
  && passes (get (filters search_params) "phone") (Person.phone p)
  && passes (get (filters search_params) "email") (Person.email p).

Definition search_predicate (search_params : SearchParams) (p : Person.t) : Prop :=
  Person.is_current p = true
  ∧ ∀ text,
      text ≠ "" →
      (get (filters search_params) "last_name" = Some text →
       Person.last_name p = Some text)
      ∧ (get (filters search_params) "first_name" = Some text →
         Person.first_name p = Some text)
      ∧ (get (filters search_params) "middle_name" = Some text →
         Person.middle_name p = Some text)
      ∧ (get (filters search_params) "address" = Some text →
         Person.address p = Some text)
      ∧ (get (filters search_params) "phone" = Some text →
         Person.phone p = Some text)
      ∧ (get (filters search_params) "email" = Some text →
         Person.email p = Some text).

(** The page of a list that [search_persons_vitrine] cuts out. *)
Definition page (search_params : SearchParams) (rows : list Person.t)
  : list Person.t :=
  drop (Z.to_nat (default 0%Z (offset search_params)))
       (take (Z.to_nat (default 0%Z (offset search_params)
                        + default 100%Z (limit search_params)))
             rows).

(** The keys do not go down along the list. *)
Fixpoint sorted_by {A} (key : A → Z) (l : list A) : Prop :=
  match l with
  | [] => True
  | x :: l' => (∀ y, y ∈ l' → (key x ≤ key y)%Z) ∧ sorted_by key l'
  end.

(** The statements of a script that are handed to the cursor. *)
Definition statements_of (sql_content : list N) : list (list N) :=
  List.filter (λ statement, negb (bool_decide (statement = []))
                            && negb (startswith (codes "--") statement))
              (strip <$> split 59 sql_content).

(** Running statements one after the other, up to the first that raises. *)
Fixpoint run_until_error {Cursor Exception : Type}
    (cursor_execute : list N → Cursor → option Exception * Cursor)
    (statements : list (list N)) (cursor : Cursor)
  : option (list N * Exception) * Cursor :=
  match statements with
  | [] => (None, cursor)
  | statement :: statements' =>
      match cursor_execute statement cursor with
      | (None, cursor) => run_until_error cursor_execute statements' cursor
      | (Some e, cursor) => (Some (statement, e), cursor)
      end
  end.

(** ** The scenarios of the specification, as data *)

(** Snapshot A: Anna Ivanova, female, at 123 Main. *)
Definition snapshot_A : gmap string value :=
  <["gender" := Some "Ж"]> (<["first_name" := Some "Anna"]>
  (<["last_name" := Some "Ivanova"]> (<["birth_date" := Some "1990-01-01"]>
  (<["address" := Some "123 Main"]> ∅)))).

(** Snapshot B: the same person under the surname Petrova. *)
Definition snapshot_B : gmap string value :=
  <["last_name" := Some "Petrova"]> snapshot_A.

(** Snapshot C: Ivan Sidorov, male, at 99 Oak, phone 555. *)
Definition snapshot_C : gmap string value :=
  <["gender" := Some "М"]> (<["first_name" := Some "Ivan"]>
  (<["last_name" := Some "Sidorov"]> (<["birth_date" := Some "1985-05-05"]>
  (<["address" := Some "99 Oak"]> (<["phone" := Some "555"]> ∅))))).

(** Snapshot D: snapshot C from another address. *)
Definition snapshot_D : gmap string value :=
  <["address" := Some "7 Elm"]> snapshot_C.

(** Columns the snapshot leaves out are [NULL]. *)
Definition null_default : string → value := λ _, None.

Definition row_A : Person.t :=
  Person.mk 1 1 (Some 1%Z) (Some "Ivanova") (Some "Anna") None
            (Some "1990-01-01") (Some "Ж") (Some "123 Main") None None 10 true.

Definition row_C : Person.t :=
  Person.mk 2 2 (Some 2%Z) (Some "Sidorov") (Some "Ivan") None
            (Some "1985-05-05") (Some "М") (Some "99 Oak") (Some "555") None
            20 true.

(** The database after A was applied, at time 10. *)
Definition store_A : Store :=
  apply_all null_default [mkCall snapshot_A None 10] empty_store.

(** The database after A and C were applied, at times 10 and 20. *)
Definition store_AC : Store :=
  apply_all null_default
    [mkCall snapshot_A None 10; mkCall snapshot_C None 20] empty_store.

(** Snapshot E: another Anna, at 5 Pine, phone 777. *)
Definition snapshot_E : gmap string value :=
  <["address" := Some "5 Pine"]> (<["phone" := Some "777"]> snapshot_A).

(** Snapshot F: an Anna at 123 Main with phone 777. *)
Definition snapshot_F : gmap string value :=
  <["phone" := Some "777"]> snapshot_A.

Definition row_E : Person.t :=
  Person.mk 2 2 (Some 2%Z) (Some "Ivanova") (Some "Anna") None
            (Some "1990-01-01") (Some "Ж") (Some "5 Pine") (Some "777") None
            20 true.

(** The database after A and E were applied: two groups. *)
Definition store_AE : Store :=
  apply_all null_default
    [mkCall snapshot_A None 10; mkCall snapshot_E None 20] empty_store.

(** Snapshot G: snapshot A with the empty string for a middle name. *)
Definition snapshot_G : gmap string value :=
  <["middle_name" := Some ""]> snapshot_A.

Definition row_G : Person.t :=
  Person.mk 1 1 (Some 1%Z) (Some "Ivanova") (Some "Anna") (Some "")
            (Some "1990-01-01") (Some "Ж") (Some "123 Main") None None 10 true.

Definition store_G : Store :=
  apply_all null_default [mkCall snapshot_G None 10] empty_store.

Definition row_B : Person.t :=
  Person.mk 2 1 (Some 2%Z) (Some "Petrova") (Some "Anna") None
            (Some "1990-01-01") (Some "Ж") (Some "123 Main") None None 30 true.

Definition history_A : PersonHistory.t :=
  PersonHistory.mk 1 1 (Some 2%Z) (Some "Ivanova") (Some "Anna") None
                   (Some "1990-01-01") (Some "Ж") (Some "123 Main") None None
                   10 30.

(** The database after A and then B were applied, at times 10 and 30. *)
Definition store_AB : Store :=
  apply_all null_default
    [mkCall snapshot_A None 10; mkCall snapshot_B None 30] empty_store.

(** The database that holds A, after a clerk recorded a change set. *)
Definition change_clerk : ChangeSet.t :=
  ChangeSet.mk 2 (Some "clerk") (Some "marriage").

Definition store_A_clerk : Store :=
  mkStore (tbl_person_group store_A) (tbl_change_set store_A ++ [change_clerk])
          (tbl_person store_A) (tbl_person_history store_A)
          (next_group_id store_A) 3 (next_person_id store_A)
          (next_history_id store_A).

(** A cursor that keeps the statements it executed and raises on the
    statement [boom]. *)
Definition log_execute (statement : list N) (log : list (list N))
  : option unit * list (list N) :=
  if bool_decide (statement = codes "boom")
  then (Some tt, log)
  else (None, log ++ [statement]).

(** ** Query sets *)

Lemma elem_of_filter_bool {A} (f : A → bool) (l : list A) (x : A) :
  x ∈ List.filter f l ↔ f x = true ∧ x ∈ l.
Proof.
  rewrite !list_elem_of_In, filter_In. tauto.
Qed.

Lemma NoDup_fmap_eq {A B} (f : A → B) (l : list A) (x y : A) :
  NoDup (f <$> l) → x ∈ l → y ∈ l → f x = f y → x = y.
Proof.
  induction l as [|a l IH]; simpl; [by intros _ ?%elem_of_nil|].
  intros [Ha Hl]%NoDup_cons [->|Hx]%elem_of_cons [->|Hy]%elem_of_cons Heq;
    [done| | |by apply IH].
  - destruct Ha. rewrite Heq. by apply list_elem_of_fmap_2.
  - destruct Ha. rewrite <- Heq. by apply list_elem_of_fmap_2.
Qed.

Lemma NoDup_fmap_filter {A B} (key : A → B) (f : A → bool) (l : list A) :
  NoDup (key <$> l) → NoDup (key <$> List.filter f l).
Proof.
  induction l as [|a l IH]; simpl; [done|].
  intros [Ha Hl]%NoDup_cons. destruct (f a); simpl; [|by apply IH].
  apply NoDup_cons. split; [|by apply IH].
  intros (x & Hx & [_ Hin]%elem_of_filter_bool)%list_elem_of_fmap.
  apply Ha. rewrite Hx. by apply list_elem_of_fmap_2.
Qed.

Section order_by_facts.
Context {A : Type} (key : A → Z).

Lemma insert_by_perm (x : A) (l : list A) : insert_by key x l ≡ₚ x :: l.
Proof.
  induction l as [|y l IH]; simpl; [done|].
  destruct (key x <=? key y)%Z; [done|].
  rewrite IH. apply Permutation_swap.
Qed.

Lemma order_by_perm (l : list A) : order_by key l ≡ₚ l.
Proof.
  induction l as [|x l IH]; simpl; [done|].
  by rewrite insert_by_perm, IH.
Qed.

Lemma first_insert_by (x : A) (l : list A) :
  first (insert_by key x l)
  = match first l with
    | Some y => if (key x <=? key y)%Z then Some x else Some y
    | None => Some x
    end.
Proof.
  destruct l as [|y l]; simpl; [done|].
  by destruct (key x <=? key y)%Z.
Qed.

Lemma first_order_by_None (l : list A) :
  first (order_by key l) = None ↔ l = [].
Proof.
  split; [|by intros ->].
  destruct l as [|x l]; [done|]. simpl. rewrite first_insert_by.
  destruct (first (order_by key l)) as [y|]; [|done].
  by destruct (key x <=? key y)%Z.
Qed.

Lemma first_order_by_Some (l : list A) (x : A) :
  first (order_by key l) = Some x →
  x ∈ l ∧ ∀ y, y ∈ l → (key x ≤ key y)%Z.
Proof.
  revert x. induction l as [|a l IH]; intros x; simpl; [done|].
  rewrite first_insert_by.
  destruct (first (order_by key l)) as [b|] eqn:Hb.
  - destruct (IH b eq_refl) as [Hin Hmin].
    destruct (Z.leb_spec (key a) (key b)); intros [= <-].
    + split; [left|]. intros y [->|Hy]%elem_of_cons; [lia|].
      specialize (Hmin y Hy). lia.
    + split; [by right|]. intros y [->|Hy]%elem_of_cons; [lia|by apply Hmin].
  - apply first_order_by_None in Hb as ->. intros [= <-].
    split; [left|]. by intros y ->%list_elem_of_singleton.
Qed.

Lemma first_order_by_is_Some (l : list A) (y : A) :
  y ∈ l → ∃ x, first (order_by key l) = Some x.
Proof.
  intros Hy. destruct (first (order_by key l)) as [x|] eqn:Hx; [by exists x|].
  apply first_order_by_None in Hx as ->. by apply elem_of_nil in Hy.
Qed.
End order_by_facts.

Lemma first_fmap {A B} (f : A → B) (l : list A) :
  first (f <$> l) = f <$> first l.
Proof. by destruct l. Qed.

(** ** The matching query *)

Lemma matching_persons_Ok (person_data : gmap string value) (db : Store) :
  indexed_keys person_data → ∃ qs, matching_persons person_data db = Ok qs.
Proof.
  intros ([g Hg] & [f Hf] & Hl & [a Ha]).
  unfold matching_persons, item. rewrite Hg, Hf. simpl.
  case_bool_decide as Hm.
  - destruct Hl as [l Hl]; [congruence|]. rewrite Hl. simpl. rewrite Ha. simpl. eauto.
  - simpl. rewrite Ha. simpl. eauto.
Qed.

Lemma elem_of_matching_persons (person_data : gmap string value) (db : Store)
    (qs : list Person.t) (p : Person.t) :
  matching_persons person_data db = Ok qs →
  p ∈ qs ↔ p ∈ tbl_person db ∧ matching_predicate person_data p.
Proof.
  unfold matching_persons, matching_predicate, same_person_condition,
    middle_name_condition, surname_condition, contact_condition, item.
  destruct (person_data !! "gender") as [g|] eqn:Hg; [|done].
  destruct (person_data !! "first_name") as [f|] eqn:Hf; [|done].
  simpl.
  destruct (get person_data "middle_name") as [m|] eqn:Hmid;
    (case_bool_decide as Hmale;
     [destruct (person_data !! "last_name") as [l|] eqn:Hl; [|done]|]);
    simpl;
    (destruct (person_data !! "address") as [a|] eqn:Ha; [|done]);
    simpl; intros [= <-];
    destruct (truthy (get person_data "phone")),
             (truthy (get person_data "email"));
    rewrite !elem_of_filter_bool; unfold exact, isnull;
    rewrite ?orb_true_iff, ?andb_true_iff, ?bool_decide_eq_true,
      ?(inj_iff (@Some value));
    pose proof (eq_refl male);
    intuition (subst; eauto; congruence).
Qed.

Lemma matching_persons_keys (person_data : gmap string value) (db : Store)
    (qs : list Person.t) :
  matching_persons person_data db = Ok qs → indexed_keys person_data.
Proof.
  unfold matching_persons, indexed_keys, item.
  destruct (person_data !! "gender") as [g|]; [|done].
  destruct (person_data !! "first_name") as [f|]; [|done]. simpl.
  case_bool_decide as Hmale;
    [destruct (person_data !! "last_name") as [l|]; [|done]|]; simpl;
    (destruct (person_data !! "address") as [a|]; [|done]);
    intros _; repeat split; eauto; congruence.
Qed.

Lemma find_matching_group_first (person_data : gmap string value) (db : Store)
    (qs : list Person.t) :
  matching_persons person_data db = Ok qs →
  find_matching_group person_data db
  = Ok (first (Person.group_id <$> order_by Person.group_id qs)).
Proof. unfold find_matching_group. by intros ->. Qed.

Lemma matching_persons_last_name (person_data : gmap string value) (db : Store)
    (last_name : value) :
  person_data !! "gender" ≠ Some male →
  matching_persons (<["last_name" := last_name]> person_data) db
  = matching_persons person_data db.
Proof.
  intros Hg. unfold matching_persons, item, get.
  assert (Hne : ∀ key, key ≠ "last_name" →
            <["last_name" := last_name]> person_data !! key = person_data !! key)
    by (intros key Hkey; by rewrite lookup_insert_ne).
  rewrite (Hne "gender"), (Hne "first_name"), (Hne "middle_name"),
    (Hne "address"), (Hne "phone"), (Hne "email") by discriminate.
  destruct (person_data !! "gender") as [g|]; [|done].
  destruct (person_data !! "first_name") as [f|]; [|done]. simpl.
  case_bool_decide; [congruence|done].
Qed.

(** ** Claims about the matching query *)

(** C3. A male snapshot matches only records with its surname; for a
    snapshot that is not male the surname is not read at all: with any
    other surname in its place the query selects the same records and
    resolves to the same group. *)
Theorem surname_rule (person_data : gmap string value) (db : Store) :
  (person_data !! "gender" = Some male →
   ∀ qs p, matching_persons person_data db = Ok qs → p ∈ qs →
           person_data !! "last_name" = Some (Person.last_name p))
  ∧ (person_data !! "gender" ≠ Some male →
     ∀ last_name,
       matching_persons (<["last_name" := last_name]> person_data) db
       = matching_persons person_data db
       ∧ find_matching_group (<["last_name" := last_name]> person_data) db
         = find_matching_group person_data db).
Proof.
  split.
  - intros Hmale qs p Hqs Hp.
    apply (elem_of_matching_persons _ _ _ p Hqs) in Hp as (_ & _ & _ & Hs & _).
    by apply Hs.
  - intros Hother last_name.
    pose proof (matching_persons_last_name person_data db last_name Hother) as Heq.
    split; [done|]. unfold find_matching_group. by rewrite Heq.
Qed.

Lemma surname_rule_witness :
  (snapshot_C !! "gender" = Some male
   ∧ matching_persons snapshot_C store_AC = Ok [row_C]
   ∧ row_C ∈ [row_C]
   ∧ snapshot_C !! "last_name" = Some (Person.last_name row_C))
  ∧ (snapshot_A !! "gender" ≠ Some male
     ∧ matching_persons (<["last_name" := Some "Petrova"]> snapshot_A) store_AC
       = matching_persons snapshot_A store_AC
     ∧ find_matching_group (<["last_name" := Some "Petrova"]> snapshot_A) store_AC
       = find_matching_group snapshot_A store_AC).
Proof.
  assert (Hmale : snapshot_C !! "gender" = Some male) by (vm_compute; reflexivity).
  assert (Hqs : matching_persons snapshot_C store_AC = Ok [row_C])
    by (vm_compute; reflexivity).
  assert (Hp : row_C ∈ [row_C]) by apply list_elem_of_here.
  assert (Hother : snapshot_A !! "gender" ≠ Some male)
    by (vm_compute; discriminate).
  split.
  - split; [exact Hmale|]. split; [exact Hqs|]. split; [exact Hp|].
    exact (proj1 (surname_rule snapshot_C store_AC) Hmale [row_C] row_C Hqs Hp).
  - split; [assumption|].
    exact (proj2 (surname_rule snapshot_A store_AC) Hother (Some "Petrova")).
Defined.

(** C4. Among the records that meet the other conditions, the query
    selects exactly those with one equal contact channel: the address, or
    the phone when the snapshot has a non-empty one, or the email when the
    snapshot has a non-empty one. *)
Theorem contact_disjunction (person_data : gmap string value) (db : Store)
    (qs : list Person.t) (p : Person.t) :
  matching_persons person_data db = Ok qs →
  p ∈ tbl_person db →
  same_person_condition person_data p →
  middle_name_condition person_data p →
  surname_condition person_data p →
  p ∈ qs ↔
    (person_data !! "address" = Some (Person.address p)
     ∨ (truthy (get person_data "phone") = true
        ∧ Person.phone p = get person_data "phone")
     ∨ (truthy (get person_data "email") = true
        ∧ Person.email p = get person_data "email")).
Proof.
  intros Hqs Hp Hsame Hmid Hsur.
  rewrite (elem_of_matching_persons _ _ _ p Hqs).
  apply matching_persons_keys in Hqs as (_ & _ & _ & Ha).
  unfold matching_predicate, contact_condition. tauto.
Qed.

(** Snapshot D has another address than record C and the same phone. *)
Lemma contact_disjunction_witness :
  matching_persons snapshot_D store_AC = Ok [row_C]
  ∧ snapshot_D !! "address" ≠ Some (Person.address row_C)
  ∧ (row_C ∈ [row_C] ↔
      (snapshot_D !! "address" = Some (Person.address row_C)
       ∨ (truthy (get snapshot_D "phone") = true
          ∧ Person.phone row_C = get snapshot_D "phone")
       ∨ (truthy (get snapshot_D "email") = true
          ∧ Person.email row_C = get snapshot_D "email"))).
Proof.
  assert (Hqs : matching_persons snapshot_D store_AC = Ok [row_C])
    by (vm_compute; reflexivity).
  split; [assumption|]. split; [vm_compute; discriminate|].
  apply (contact_disjunction snapshot_D store_AC [row_C] row_C Hqs).
  - vm_compute. apply list_elem_of_further, list_elem_of_here.
  - repeat split; vm_compute; reflexivity.
  - vm_compute; reflexivity.
  - intros _. vm_compute; reflexivity.
Defined.

(** C6. When some record matches, the query resolves to a group, that
    group holds a matching record, and no matching record is in a group
    with a smaller identifier. *)
Theorem smallest_matching_group (person_data : gmap string value) (db : Store)
    (p : Person.t) :
  p ∈ tbl_person db →
  matching_predicate person_data p →
  ∃ group_id,
    find_matching_group person_data db = Ok (Some group_id)
    ∧ (∃ q, q ∈ tbl_person db ∧ matching_predicate person_data q
            ∧ Person.group_id q = group_id)
    ∧ (∀ q, q ∈ tbl_person db → matching_predicate person_data q →
            (group_id ≤ Person.group_id q)%Z).
Proof.
  intros Hp Hmatch.
  destruct (matching_persons_Ok person_data db) as [qs Hqs].
  { destruct Hmatch as ((_ & Hg & Hf) & _ & Hs & Ha & _).
    repeat split; eauto. }
  assert (Hin : p ∈ qs) by (by apply (elem_of_matching_persons _ _ _ p Hqs)).
  destruct (first_order_by_is_Some Person.group_id qs p Hin) as [x Hx].
  destruct (first_order_by_Some _ _ _ Hx) as [Hxin Hmin].
  exists (Person.group_id x). split; [|split].
  - rewrite (find_matching_group_first _ _ _ Hqs).
    by rewrite first_fmap, Hx.
  - exists x. by apply (elem_of_matching_persons _ _ _ x Hqs) in Hxin as [? ?].
  - intros q Hq Hqm. apply Hmin. by apply (elem_of_matching_persons _ _ _ q Hqs).
Qed.

Lemma smallest_matching_group_witness :
  row_E ∈ tbl_person store_AE
  ∧ matching_predicate snapshot_F row_E
  ∧ find_matching_group snapshot_F store_AE = Ok (Some 1%Z)
  ∧ ∃ group_id,
      find_matching_group snapshot_F store_AE = Ok (Some group_id)
      ∧ (∃ q, q ∈ tbl_person store_AE ∧ matching_predicate snapshot_F q
              ∧ Person.group_id q = group_id)
      ∧ (∀ q, q ∈ tbl_person store_AE → matching_predicate snapshot_F q →
              (group_id ≤ Person.group_id q)%Z).
Proof.
  assert (Hin : row_E ∈ tbl_person store_AE)
    by (vm_compute; apply list_elem_of_further, list_elem_of_here).
  assert (Hmatch : matching_predicate snapshot_F row_E).
  { split; [|split; [|split]].
    - split; [|split]; vm_compute; reflexivity.
    - vm_compute; reflexivity.
    - intros Hmale. vm_compute in Hmale. discriminate Hmale.
    - split; [vm_compute; eauto|]. right; left. split; vm_compute; reflexivity. }
  split; [exact Hin|]. split; [exact Hmatch|].
  split; [vm_compute; reflexivity|].
  exact (smallest_matching_group snapshot_F store_AE row_E Hin Hmatch).
Defined.

(** C7. Among the records that meet the other conditions, the query
    selects exactly those whose middle name equals the snapshot's, where a
    snapshot without a middle name equals [NULL] and nothing else. *)
Theorem middle_name_rule (person_data : gmap string value) (db : Store)
    (qs : list Person.t) (p : Person.t) :
  matching_persons person_data db = Ok qs →
  p ∈ tbl_person db →
  same_person_condition person_data p →
  surname_condition person_data p →
  contact_condition person_data p →
  p ∈ qs ↔
    match get person_data "middle_name" with
    | None => Person.middle_name p = None
    | Some middle_name => Person.middle_name p = Some middle_name
    end.
Proof.
  intros Hqs Hp Hsame Hsur Hcon.
  rewrite (elem_of_matching_persons _ _ _ p Hqs).
  unfold matching_predicate, middle_name_condition.
  destruct (get person_data "middle_name"); tauto.
Qed.

(** Snapshot F has no middle name, and neither has record E. *)
Lemma middle_name_rule_witness :
  matching_persons snapshot_F store_AE = Ok [row_A; row_E]
  ∧ get snapshot_F "middle_name" = None
  ∧ (row_E ∈ [row_A; row_E] ↔
       match get snapshot_F "middle_name" with
       | None => Person.middle_name row_E = None
       | Some middle_name => Person.middle_name row_E = Some middle_name
       end).
Proof.
  assert (Hqs : matching_persons snapshot_F store_AE = Ok [row_A; row_E])
    by (vm_compute; reflexivity).
  split; [exact Hqs|]. split; [vm_compute; reflexivity|].
  apply (middle_name_rule snapshot_F store_AE [row_A; row_E] row_E Hqs).
  - vm_compute. apply list_elem_of_further, list_elem_of_here.
  - split; [|split]; vm_compute; reflexivity.
  - intros Hmale. vm_compute in Hmale. discriminate Hmale.
  - split; [vm_compute; eauto|]. right; left. split; vm_compute; reflexivity.
Defined.

(** C10. Absence of the middle name is the test [is None]: a snapshot
    whose middle name is the empty string selects records whose middle
    name is the empty string, never [NULL]; a snapshot whose middle name is
    [None] or missing selects records whose middle name is [NULL]. *)
Theorem empty_middle_name_is_present (person_data : gmap string value)
    (db : Store) (qs : list Person.t) (p : Person.t) :
  matching_persons person_data db = Ok qs →
  p ∈ qs →
  (person_data !! "middle_name" = Some (Some "") →
   Person.middle_name p = Some "" ∧ Person.middle_name p ≠ None)
  ∧ (person_data !! "middle_name" = Some None
     ∨ person_data !! "middle_name" = None →
     Person.middle_name p = None).
Proof.
  intros Hqs Hp.
  apply (elem_of_matching_persons _ _ _ p Hqs) in Hp as (_ & _ & Hmid & _).
  unfold middle_name_condition, get in Hmid. split.
  - intros Hempty. rewrite Hempty in Hmid. simpl in Hmid. by rewrite Hmid.
  - intros [Hnone|Hmissing].
    + by rewrite Hnone in Hmid.
    + by rewrite Hmissing in Hmid.
Qed.

(** Snapshot G carries the empty middle name and matches record G, stored
    with the empty middle name; snapshot A, without the key, does not. *)
Lemma empty_middle_name_is_present_witness :
  matching_persons snapshot_G store_G = Ok [row_G]
  ∧ matching_persons snapshot_A store_G = Ok []
  ∧ matching_persons (<["middle_name" := None]> snapshot_A) store_G = Ok []
  ∧ row_G ∈ [row_G]
  ∧ snapshot_G !! "middle_name" = Some (Some "")
  ∧ Person.middle_name row_G = Some ""
  ∧ Person.middle_name row_G ≠ None.
Proof.
  assert (Hqs : matching_persons snapshot_G store_G = Ok [row_G])
    by (vm_compute; reflexivity).
  assert (Hp : row_G ∈ [row_G]) by apply list_elem_of_here.
  split; [exact Hqs|]. split; [vm_compute; reflexivity|].
  split; [vm_compute; reflexivity|]. split; [exact Hp|].
  assert (Hempty : snapshot_G !! "middle_name" = Some (Some ""))
    by (vm_compute; reflexivity).
  split; [exact Hempty|].
  exact (proj1 (empty_middle_name_is_present snapshot_G store_G [row_G] row_G
                  Hqs Hp) Hempty).
Defined.

(** ** The versioning write *)

Lemma find_matching_group_ext (person_data : gmap string value) (db1 db2 : Store) :
  tbl_person db1 = tbl_person db2 →
  find_matching_group person_data db1 = find_matching_group person_data db2.
Proof.
  intros Heq. unfold find_matching_group, matching_persons. by rewrite Heq.
Qed.

Lemma update_is_current_id (id : Z) (b : bool) (p : Person.t) :
  Person.id (update_is_current id b p) = Person.id p.
Proof. unfold update_is_current. by case_bool_decide. Qed.

Lemma update_is_current_group_id (id : Z) (b : bool) (p : Person.t) :
  Person.group_id (update_is_current id b p) = Person.group_id p.
Proof. unfold update_is_current. by case_bool_decide. Qed.

Lemma update_is_current_ne (id : Z) (b : bool) (p : Person.t) :
  Person.id p ≠ id → update_is_current id b p = p.
Proof. intros Hne. unfold update_is_current. by case_bool_decide. Qed.

Lemma update_is_current_false (id : Z) (p : Person.t) :
  Person.is_current (update_is_current id false p) = true →
  Person.id p ≠ id ∧ update_is_current id false p = p.
Proof. unfold update_is_current. by case_bool_decide. Qed.

Lemma elem_of_current_of (group_id : Z) (db : Store) (p : Person.t) :
  p ∈ current_of group_id db
  ↔ p ∈ tbl_person db ∧ Person.group_id p = group_id
    ∧ Person.is_current p = true.
Proof.
  unfold current_of.
  rewrite elem_of_filter_bool, andb_true_iff, bool_decide_eq_true. tauto.
Qed.

(** The query for the previous live record, run after the insert, sees the
    live records the group had before it. *)
Lemma previous_query (group : Z) (db : Store) (person : Person.t) :
  (∀ p, p ∈ tbl_person db → (Person.id p < next_person_id db)%Z) →
  Person.id person = next_person_id db →
  List.filter
    (λ p, bool_decide (Person.group_id p = group)
          && Person.is_current p
          && negb (bool_decide (Person.id p = Person.id person)))
    (tbl_person db ++ [person])
  = current_of group db.
Proof.
  intros Hlt Hid. rewrite List.filter_app. simpl.
  rewrite (bool_decide_eq_true_2 _ eq_refl), andb_false_r, app_nil_r.
  apply List.filter_ext_in. intros p Hp%list_elem_of_In%Hlt.
  rewrite (bool_decide_eq_false_2 (Person.id p = Person.id person)) by lia.
  by rewrite andb_true_r.
Qed.

Section create_person_facts.
Variable column_default : string → value.

(** Inversion of a completed call: the group it wrote to, the row it
    inserted, and what it did to the previous live record. *)
Lemma create_person_Ok (person_data : gmap string value)
    (change_set : option ChangeSet.t) (now_ts : Z) (db db' : Store)
    (person : Person.t) :
  create_person column_default person_data change_set now_ts db
  = Ok (person, db') →
  ∃ change group : Z,
    ((find_matching_group person_data db = Ok (Some group)
      ∧ group ∈ tbl_person_group db
      ∧ tbl_person_group db' = tbl_person_group db
      ∧ next_group_id db' = next_group_id db)
     ∨ ((find_matching_group person_data db = Ok None
         ∨ find_matching_group person_data db = Ok (Some 0%Z))
        ∧ group = next_group_id db
        ∧ tbl_person_group db' = tbl_person_group db ++ [group]
        ∧ next_group_id db' = (next_group_id db + 1)%Z))
    ∧ dom person_data ⊆ attribute_columns
    ∧ person = new_person column_default person_data (next_person_id db)
                          group change now_ts
    ∧ next_person_id db' = (next_person_id db + 1)%Z
    ∧ match first
              (order_by (λ p, - Person.created_at p)%Z
                 (List.filter
                    (λ p, bool_decide (Person.group_id p = group)
                          && Person.is_current p
                          && negb (bool_decide (Person.id p = Person.id person)))
                    (tbl_person db ++ [person])))
      with
      | Some prev =>
          tbl_person db'
          = update_is_current (Person.id prev) false
              <$> (tbl_person db ++ [person])
          ∧ ∃ id,
              tbl_person_history db'
              = tbl_person_history db
                ++ [PersonHistory.mk id group (Some change)
                      (Person.last_name prev) (Person.first_name prev)
                      (Person.middle_name prev) (Person.birth_date prev)
                      (Person.gender prev) (Person.address prev)
                      (Person.phone prev) (Person.email prev)
                      (Person.created_at prev) now_ts]
      | None =>
          tbl_person db' = tbl_person db ++ [person]
          ∧ tbl_person_history db' = tbl_person_history db
      end.
Proof.
  unfold create_person, mbind, M_bind, query, mret, M_ret. intros H.
  match type of H with
  | match ?m with _ => _ end = _ => destruct m as [[c db1]|] eqn:Hc; [|done]
  end.
  assert (tbl_person db1 = tbl_person db
          ∧ tbl_person_group db1 = tbl_person_group db
          ∧ tbl_person_history db1 = tbl_person_history db
          ∧ next_group_id db1 = next_group_id db
          ∧ next_person_id db1 = next_person_id db
          ∧ next_history_id db1 = next_history_id db)
    as (Hp1 & Hg1 & Hh1 & Hng1 & Hnp1 & Hnh1).
  { destruct change_set; injection Hc as <- <-; by repeat split. }
  clear Hc.
  rewrite (find_matching_group_ext person_data db1 db Hp1) in H.
  destruct (find_matching_group person_data db) as [gid|] eqn:Hfind; [|done].
  exists (ChangeSet.id c).
  match type of H with
  | match ?m with _ => _ end = _ =>
      destruct m as [[group db2]|] eqn:Hgrp; [|done]
  end.
  exists group.
  assert (tbl_person db2 = tbl_person db
          ∧ tbl_person_history db2 = tbl_person_history db
          ∧ next_person_id db2 = next_person_id db
          ∧ next_history_id db2 = next_history_id db
          ∧ ((gid = Some group
              ∧ group ∈ tbl_person_group db
              ∧ tbl_person_group db2 = tbl_person_group db
              ∧ next_group_id db2 = next_group_id db)
             ∨ ((gid = None ∨ gid = Some 0%Z)
                ∧ group = next_group_id db
                ∧ tbl_person_group db2 = tbl_person_group db ++ [group]
                ∧ next_group_id db2 = (next_group_id db + 1)%Z)))
    as (Hp2 & Hh2 & Hnp2 & Hnh2 & Hcase).
  { destruct gid as [g|]; [case_bool_decide as Hz|].
    - unfold PersonGroup.get in Hgrp. case_bool_decide as Hin; [|done].
      injection Hgrp as <- <-. rewrite Hg1 in Hin.
      repeat split; try done. left. by repeat split.
    - subst g. unfold PersonGroup.create in Hgrp.
      injection Hgrp as <- <-. simpl. rewrite Hg1, Hng1.
      repeat split; try done. right. repeat split; eauto.
    - unfold PersonGroup.create in Hgrp.
      injection Hgrp as <- <-. simpl. rewrite Hg1, Hng1.
      repeat split; try done. right. repeat split; eauto. }
  clear Hgrp.
  unfold insert_person in H. case_bool_decide as Hdom; [|done].
  simpl in H. rewrite Hp2, Hnp2 in H.
  assert (Hgroup :
      (Ok gid = Ok (Some group)
       ∧ group ∈ tbl_person_group db
       ∧ tbl_person_group db2 = tbl_person_group db
       ∧ next_group_id db2 = next_group_id db)
      ∨ ((Ok gid = Ok None ∨ Ok gid = Ok (Some 0%Z))
         ∧ group = next_group_id db
         ∧ tbl_person_group db2 = tbl_person_group db ++ [group]
         ∧ next_group_id db2 = (next_group_id db + 1)%Z)).
  { destruct Hcase as [(-> & ? & ? & ?)|(Hgid & ? & ? & ?)]; [by left|].
    right. by destruct Hgid as [-> | ->]; eauto. }
  match type of H with
  | match match ?m with _ => _ end _ with _ => _ end = _ =>
      destruct m as [prev|] eqn:Hprev
  end.
  - unfold save_is_current in H. simpl in H. injection H as <- <-. simpl.
    split; [exact Hgroup|].
    split; [done|]. split; [done|]. split; [done|]. rewrite Hprev.
    split; [done|]. rewrite Hh2. eauto.
  - injection H as <- <-. simpl.
    split; [exact Hgroup|].
    split; [done|]. split; [done|]. split; [done|]. rewrite Hprev.
    by rewrite Hh2.
Qed.

(** What a completed call does to the table of persons: it retires the
    live records of the group it writes to, keeps every other row, and
    appends the new row. *)
Lemma create_person_step (person_data : gmap string value)
    (change_set : option ChangeSet.t) (now_ts : Z) (db db' : Store)
    (person : Person.t) :
  keys_ok db → one_current db →
  create_person column_default person_data change_set now_ts db
  = Ok (person, db') →
  ∃ f : Person.t → Person.t,
    tbl_person db' = (f <$> tbl_person db) ++ [person]
    ∧ (∀ r, Person.id (f r) = Person.id r
            ∧ Person.group_id (f r) = Person.group_id r)
    ∧ (∀ r, Person.is_current (f r) = true → f r = r)
    ∧ (∀ r, r ∈ tbl_person db →
            Person.group_id r = Person.group_id person →
            Person.is_current (f r) = false)
    ∧ (∀ r, r ∈ tbl_person db →
            Person.group_id r ≠ Person.group_id person → f r = r).
Proof.
  intros Hkeys Hone Hcall.
  destruct (create_person_Ok _ _ _ _ _ _ Hcall)
    as (change & group & _ & _ & Hperson & _ & Hprev).
  rewrite previous_query in Hprev
    by (by apply person_id_lt || by rewrite Hperson).
  assert (Hgroup : Person.group_id person = group) by (by rewrite Hperson).
  assert (Hid : Person.id person = next_person_id db) by (by rewrite Hperson).
  destruct (first _) as [prev|] eqn:Hfirst.
  - destruct Hprev as [Hrows _].
    apply first_order_by_Some in Hfirst as [Hin _].
    apply elem_of_current_of in Hin as (Hin & Hpg & Hpc).
    exists (update_is_current (Person.id prev) false).
    rewrite Hrows, fmap_app. simpl.
    rewrite (update_is_current_ne _ _ person)
      by (apply (person_id_lt _ Hkeys) in Hin; lia).
    split; [done|]. split; [|split; [|split]].
    + intros r. by rewrite update_is_current_id, update_is_current_group_id.
    + by intros r [_ ?]%update_is_current_false.
    + intros r Hr Hrg.
      destruct (Person.is_current (update_is_current _ false r)) eqn:Hcur;
        [|done].
      pose proof Hcur as [Hne Heq]%update_is_current_false.
      rewrite Heq in Hcur. destruct Hne.
      apply Hone; try done. congruence.
    + intros r Hr Hrg. apply update_is_current_ne. intros Heq.
      apply (NoDup_fmap_eq _ _ r prev (person_id_nodup _ Hkeys) Hr Hin) in Heq.
      congruence.
  - destruct Hprev as [Hrows _].
    apply first_order_by_None in Hfirst.
    exists (λ r, r). rewrite Hrows, list_fmap_id.
    split; [done|]. split; [done|]. split; [done|]. split; [|done].
    intros r Hr Hrg.
    destruct (Person.is_current r) eqn:Hcur; [|done].
    assert (Hin : r ∈ current_of group db)
      by (apply elem_of_current_of; by rewrite Hrg).
    rewrite Hfirst in Hin. by apply elem_of_nil in Hin.
Qed.

Lemma create_person_inv (person_data : gmap string value)
    (change_set : option ChangeSet.t) (now_ts : Z) (db db' : Store)
    (person : Person.t) :
  store_inv db →
  create_person column_default person_data change_set now_ts db
  = Ok (person, db') →
  store_inv db'.
Proof.
  intros [Hkeys Hone] Hcall.
  destruct (create_person_Ok _ _ _ _ _ _ Hcall)
    as (change & group & Hgroup & _ & Hperson & Hnext & _).
  destruct (create_person_step _ _ _ _ _ _ Hkeys Hone Hcall)
    as (f & Hrows & Hf & Hkeep & Hretire & _).
  assert (Hpg : Person.group_id person = group) by (by rewrite Hperson).
  assert (Hid : Person.id person = next_person_id db) by (by rewrite Hperson).
  assert (Hcur : Person.is_current person = true) by (by rewrite Hperson).
  split; [split|].
  - intros p. rewrite Hrows, Hnext, elem_of_app, list_elem_of_fmap.
    intros [(r & -> & Hr)| ->%list_elem_of_singleton]; [|lia].
    destruct (Hf r) as [-> _]. apply (person_id_lt _ Hkeys) in Hr. lia.
  - rewrite Hrows, fmap_app, <- list_fmap_compose.
    rewrite (list_fmap_ext (Person.id ∘ f) Person.id)
      by (intros ? r _; apply (Hf r)).
    apply NoDup_app. split; [by apply person_id_nodup|].
    split; [|apply NoDup_singleton].
    intros i (r & -> & Hr)%list_elem_of_fmap Heq%list_elem_of_singleton.
    apply (person_id_lt _ Hkeys) in Hr. simpl in Heq. lia.
  - intros p. rewrite Hrows, elem_of_app, list_elem_of_fmap.
    intros [(r & -> & Hr)| ->%list_elem_of_singleton].
    + destruct (Hf r) as [_ ->]. apply (person_group_fk _ Hkeys) in Hr.
      destruct Hgroup as [(_ & _ & -> & _)|(_ & _ & -> & _)];
        [done|apply elem_of_app; by left].
    + rewrite Hpg.
      destruct Hgroup as [(_ & ? & -> & _)|(_ & _ & -> & _)];
        [done|apply elem_of_app; right; apply list_elem_of_here].
  - intros g.
    destruct Hgroup as [(_ & _ & -> & ->)|(_ & -> & -> & ->)];
      [by apply group_id_lt|].
    intros [Hg| ->%list_elem_of_singleton]%elem_of_app; [|lia].
    apply (group_id_lt _ Hkeys) in Hg. lia.
  - intros x y. rewrite Hrows, !elem_of_app, !list_elem_of_fmap.
    intros [(r & -> & Hr)| ->%list_elem_of_singleton]
           [(q & -> & Hq)| ->%list_elem_of_singleton] Hx Hy Hxy;
      [|exfalso..|done].
    + pose proof (Hkeep r Hx) as Hfr. pose proof (Hkeep q Hy) as Hfq.
      rewrite Hfr, Hfq in *. by apply Hone.
    + destruct (Hf r) as [_ Hgr]. rewrite Hgr in Hxy.
      by rewrite (Hretire r Hr Hxy) in Hx.
    + destruct (Hf q) as [_ Hgq]. rewrite Hgq in Hxy.
      by rewrite (Hretire q Hq (eq_sym Hxy)) in Hy.
Qed.

Lemma apply_all_inv (calls : list call) (db : Store) :
  store_inv db → store_inv (apply_all column_default calls db).
Proof.
  revert db. induction calls as [|c calls IH]; intros db Hinv; simpl; [done|].
  destruct (create_person _ _ _ _ db) as [[person db']|] eqn:Hcall;
    [|by apply IH].
  apply IH. by eapply create_person_inv.
Qed.
End create_person_facts.

Lemma empty_store_inv : store_inv empty_store.
Proof.
  split; [split|]; simpl.
  - by intros p ?%elem_of_nil.
  - apply NoDup_nil_2.
  - by intros p ?%elem_of_nil.
  - by intros p ?%elem_of_nil.
  - by intros p q ?%elem_of_nil.
Qed.

Lemma store_inv_at_most_one (db : Store) (group_id : Z) :
  store_inv db → (List.length (current_of group_id db) ≤ 1)%nat.
Proof.
  intros [Hkeys Hone].
  pose proof (NoDup_fmap_filter Person.id
    (λ p, bool_decide (Person.group_id p = group_id) && Person.is_current p)
    _ (person_id_nodup _ Hkeys)) as Hnodup.
  fold (current_of group_id db) in Hnodup.
  destruct (current_of group_id db) as [|x [|y l]] eqn:Hl; simpl; [lia..|].
  exfalso.
  assert (Hx : x ∈ current_of group_id db) by (rewrite Hl; left).
  assert (Hy : y ∈ current_of group_id db)
    by (rewrite Hl; right; left).
  apply elem_of_current_of in Hx as (Hx & Hxg & Hxc).
  apply elem_of_current_of in Hy as (Hy & Hyg & Hyc).
  simpl in Hnodup. apply NoDup_cons in Hnodup as [Hnot _].
  apply Hnot. rewrite (Hone x y) by congruence. left.
Qed.

(** Well-formedness of closed inputs, by evaluation. *)
Ltac well_formed_tac :=
  cbn [well_formed_calls]; unfold well_formed, recorded;
  cbn [call_data call_change_set];
  apply (bool_decide_eq_true_1 _); vm_compute; reflexivity.

(** ** Claims about the versioning write *)

(** C1. After any sequence of calls on the empty database, each on a
    snapshot of attribute keys and with a change set of the table, every
    group has at most one live record; and a further such call that finds
    a live record in the group it writes to sets [is_current] to false on
    the row with that primary key, which is that record alone, keeps every
    other row, appends its own row, and leaves its own row as the one live
    record of the group. *)
Theorem at_most_one_current (column_default : string → value)
    (calls : list call) :
  well_formed_calls column_default calls empty_store →
  (∀ group_id,
     (List.length
        (current_of group_id (apply_all column_default calls empty_store))
      ≤ 1)%nat)
  ∧ ∀ person_data change_set now_ts person db',
      well_formed person_data change_set
        (apply_all column_default calls empty_store) →
      create_person column_default person_data change_set now_ts
        (apply_all column_default calls empty_store)
      = Ok (person, db') →
      ∀ prev,
        prev ∈ current_of (Person.group_id person)
                 (apply_all column_default calls empty_store) →
        tbl_person db'
        = (update_is_current (Person.id prev) false
             <$> tbl_person (apply_all column_default calls empty_store))
          ++ [person]
        ∧ (∀ q, q ∈ tbl_person (apply_all column_default calls empty_store) →
                Person.id q = Person.id prev → q = prev)
        ∧ current_of (Person.group_id person) db' = [person].
Proof.
  intros _.
  pose proof (apply_all_inv column_default calls _ empty_store_inv) as Hinv.
  set (db := apply_all column_default calls empty_store) in *.
  split; [intros g; by apply store_inv_at_most_one|].
  intros person_data change_set now_ts person db' _ Hcall prev Hprev.
  destruct Hinv as [Hkeys Hone].
  destruct (create_person_Ok _ _ _ _ _ _ _ Hcall)
    as (change & group & _ & _ & Hperson & _ & Hfirst).
  assert (Hpg : Person.group_id person = group) by (by rewrite Hperson).
  assert (Hid : Person.id person = next_person_id db) by (by rewrite Hperson).
  assert (Hcur : Person.is_current person = true) by (by rewrite Hperson).
  rewrite previous_query in Hfirst by (by apply person_id_lt || done).
  rewrite Hpg in Hprev.
  destruct (first_order_by_is_Some (λ p, - Person.created_at p)%Z _ _ Hprev)
    as [q Hq].
  rewrite Hq in Hfirst. destruct Hfirst as [Hrows _].
  apply first_order_by_Some in Hq as [Hq _].
  apply elem_of_current_of in Hq as (Hq & Hqg & Hqc).
  apply elem_of_current_of in Hprev as (Hprev & Hprevg & Hprevc).
  assert (q = prev) as ->.
  { apply (NoDup_fmap_eq Person.id (tbl_person db)); try done.
    - by apply person_id_nodup.
    - apply Hone; try done. congruence. }
  assert (Hrows' : tbl_person db'
            = (update_is_current (Person.id prev) false <$> tbl_person db)
              ++ [person]).
  { rewrite Hrows, fmap_app. simpl.
    rewrite (update_is_current_ne _ _ person); [done|].
    apply (person_id_lt _ Hkeys) in Hprev. lia. }
  split; [exact Hrows'|]. split.
  - intros r Hr Heq.
    by apply (NoDup_fmap_eq Person.id (tbl_person db) r prev
                (person_id_nodup _ Hkeys)).
  - unfold current_of. rewrite Hrows', List.filter_app. simpl.
    rewrite Hcur, (bool_decide_eq_true_2 _ eq_refl). simpl.
    rewrite Hpg.
    match goal with
    | |- ?l ++ _ = _ => assert (l = []) as ->; [|done]
    end.
    apply elem_of_nil_inv.
    intros x [Hx (r & -> & Hr)%list_elem_of_fmap]%elem_of_filter_bool.
    apply andb_true_iff in Hx as [Hxg%bool_decide_eq_true Hxc].
    rewrite update_is_current_group_id in Hxg.
    pose proof Hxc as [Hne Heq]%update_is_current_false.
    rewrite Heq in Hxc. apply Hne, Hone; try done. congruence.
Qed.

(** After snapshot A, snapshot B resolves to the group of A: the record
    of A is retired and the record of B is the live one. *)
Lemma at_most_one_current_witness :
  well_formed_calls null_default [mkCall snapshot_A None 10] empty_store
  ∧ well_formed snapshot_B None store_A
  ∧ create_person null_default snapshot_B None 30
    store_A
  = Ok (row_B, store_AB)
  ∧ row_A ∈ current_of (Person.group_id row_B)
              store_A
  ∧ tbl_person store_AB = [Person.set_is_current false row_A; row_B]
  ∧ tbl_person store_AB
    = (update_is_current (Person.id row_A) false
         <$> tbl_person
               store_A)
      ++ [row_B]
  ∧ (∀ q, q ∈ tbl_person
                store_A →
          Person.id q = Person.id row_A → q = row_A)
  ∧ current_of (Person.group_id row_B) store_AB = [row_B].
Proof.
  assert (Hcalls :
    well_formed_calls null_default [mkCall snapshot_A None 10] empty_store)
    by well_formed_tac.
  assert (Hwf : well_formed snapshot_B None store_A) by well_formed_tac.
  assert (Hcall :
    create_person null_default snapshot_B None 30
      store_A
    = Ok (row_B, store_AB)) by (vm_compute; reflexivity).
  assert (Hprev :
    row_A ∈ current_of (Person.group_id row_B)
              store_A)
    by (vm_compute; apply list_elem_of_here).
  split; [exact Hcalls|]. split; [exact Hwf|].
  split; [exact Hcall|]. split; [exact Hprev|].
  split; [vm_compute; reflexivity|].
  exact (proj2 (at_most_one_current null_default [mkCall snapshot_A None 10]
                  Hcalls)
           snapshot_B None 30%Z row_B store_AB Hwf Hcall row_A Hprev).
Defined.

(** C2. A call that retires a live record appends one history record: a
    copy of the attributes of the retired record, valid from the creation
    of the retired record to the creation of the new one. *)
Theorem history_on_retire (column_default : string → value)
    (person_data : gmap string value) (change_set : option ChangeSet.t)
    (now_ts : Z) (db db' : Store) (person prev : Person.t) :
  keys_ok db →
  create_person column_default person_data change_set now_ts db
  = Ok (person, db') →
  prev ∈ tbl_person db →
  Person.is_current prev = true →
  Person.set_is_current false prev ∈ tbl_person db' →
  ∃ h,
    tbl_person_history db' = tbl_person_history db ++ [h]
    ∧ PersonHistory.group_id h = Person.group_id prev
    ∧ copies prev h
    ∧ PersonHistory.valid_from h = Person.created_at prev
    ∧ PersonHistory.valid_to h = Person.created_at person.
Proof.
  intros Hkeys Hcall Hprev Hcur Hretired.
  destruct (create_person_Ok _ _ _ _ _ _ _ Hcall)
    as (change & group & _ & _ & Hperson & _ & Hfirst).
  assert (Hid : Person.id person = next_person_id db) by (by rewrite Hperson).
  assert (Hnow : Person.created_at person = now_ts) by (by rewrite Hperson).
  rewrite previous_query in Hfirst by (by apply person_id_lt || done).
  pose proof (person_id_lt _ Hkeys _ Hprev) as Hlt.
  destruct (first _) as [q|] eqn:Hq.
  - destruct Hfirst as [Hrows [id Hhist]].
    apply first_order_by_Some in Hq as [Hq _].
    apply elem_of_current_of in Hq as (Hq & Hqg & Hqc).
    rewrite Hrows in Hretired.
    apply list_elem_of_fmap in Hretired as (r & Heq & Hr).
    assert (Hrid : Person.id r = Person.id prev).
    { rewrite <- (update_is_current_id (Person.id q) false r), <- Heq. done. }
    assert (r = prev) as ->.
    { apply elem_of_app in Hr as [Hr| ->%list_elem_of_singleton]; [|lia].
      by apply (NoDup_fmap_eq Person.id (tbl_person db) r prev
                  (person_id_nodup _ Hkeys)). }
    assert (q = prev) as ->.
    { apply (NoDup_fmap_eq Person.id (tbl_person db) q prev
               (person_id_nodup _ Hkeys)); try done.
      destruct (decide (Person.id prev = Person.id q)) as [|Hne]; [done|].
      rewrite (update_is_current_ne _ _ _ Hne) in Heq.
      rewrite <- Heq in Hcur. done. }
    eexists. split; [exact Hhist|]. simpl.
    split; [done|]. split; [by repeat split|]. by rewrite Hnow.
  - exfalso. destruct Hfirst as [Hrows _]. rewrite Hrows in Hretired.
    apply elem_of_app in Hretired as [Hr|Heq%list_elem_of_singleton].
    + assert (Person.set_is_current false prev = prev) as Heq
        by (by apply (NoDup_fmap_eq Person.id (tbl_person db) _ prev
                        (person_id_nodup _ Hkeys))).
      rewrite <- Heq in Hcur. done.
    + rewrite <- Heq in Hid. simpl in Hid. lia.
Qed.

(** Applying snapshot B after snapshot A retires the record of A into a
    history record for the interval from 10 to 30. *)
Lemma history_on_retire_witness :
  keys_ok store_A
  ∧ create_person null_default snapshot_B None 30 store_A = Ok (row_B, store_AB)
  ∧ row_A ∈ tbl_person store_A
  ∧ Person.is_current row_A = true
  ∧ Person.set_is_current false row_A ∈ tbl_person store_AB
  ∧ tbl_person_history store_A = []
  ∧ tbl_person_history store_AB = [history_A]
  ∧ ∃ h,
      tbl_person_history store_AB = tbl_person_history store_A ++ [h]
      ∧ PersonHistory.group_id h = Person.group_id row_A
      ∧ copies row_A h
      ∧ PersonHistory.valid_from h = Person.created_at row_A
      ∧ PersonHistory.valid_to h = Person.created_at row_B.
Proof.
  assert (Hkeys : keys_ok store_A)
    by exact (proj1 (apply_all_inv null_default _ _ empty_store_inv)).
  assert (Hcall : create_person null_default snapshot_B None 30 store_A
                  = Ok (row_B, store_AB)) by (vm_compute; reflexivity).
  assert (Hprev : row_A ∈ tbl_person store_A)
    by (vm_compute; apply list_elem_of_here).
  assert (Hcur : Person.is_current row_A = true) by reflexivity.
  assert (Hretired : Person.set_is_current false row_A ∈ tbl_person store_AB)
    by (vm_compute; apply list_elem_of_here).
  split; [exact Hkeys|]. split; [exact Hcall|]. split; [exact Hprev|].
  split; [exact Hcur|]. split; [exact Hretired|].
  split; [vm_compute; reflexivity|]. split; [vm_compute; reflexivity|].
  exact (history_on_retire null_default snapshot_B None 30%Z store_A store_AB
           row_B row_A Hkeys Hcall Hprev Hcur Hretired).
Defined.


Lemma new_person_carries (column_default : string → value)
    (person_data : gmap string value) (id group change now_ts : Z) :
  carries person_data
    (new_person column_default person_data id group change now_ts).
Proof.
  intros v. unfold new_person. simpl.
  repeat split; by intros ->.
Qed.



(** ** Claims about the temporal read *)

Lemma elem_of_current_at (group_id timestamp : Z) (db : Store) (p : Person.t) :
  p ∈ List.filter
        (λ p, bool_decide (Person.group_id p = group_id)
              && Person.is_current p
              && (Person.created_at p <=? timestamp)%Z)
        (tbl_person db)
  ↔ p ∈ tbl_person db ∧ current_at group_id timestamp p.
Proof.
  rewrite elem_of_filter_bool, !andb_true_iff, bool_decide_eq_true, Z.leb_le.
  unfold current_at. tauto.
Qed.

Lemma elem_of_covers (group_id timestamp : Z) (db : Store) (h : PersonHistory.t) :
  h ∈ List.filter
        (λ h, bool_decide (PersonHistory.group_id h = group_id)
              && (PersonHistory.valid_from h <=? timestamp)%Z
              && (timestamp <? PersonHistory.valid_to h)%Z)
        (tbl_person_history db)
  ↔ h ∈ tbl_person_history db ∧ covers group_id timestamp h.
Proof.
  rewrite elem_of_filter_bool, !andb_true_iff, bool_decide_eq_true, Z.leb_le,
    Z.ltb_lt.
  unfold covers. tauto.
Qed.

(** C5. With a live record of the group created at or before the
    timestamp, the answer is the attributes of such a record, the latest
    created, which under the invariant of the writes is the one live
    record of the group; without one, and with a history record of the
    group whose interval [valid_from, valid_to) holds the timestamp, it is
    the attributes of such a history record, of the largest [valid_from];
    without either the answer is [None]. *)
Theorem state_at (group_id timestamp : Z) (db : Store) :
  (∀ c, c ∈ tbl_person db → current_at group_id timestamp c →
     ∃ c', c' ∈ tbl_person db ∧ current_at group_id timestamp c'
           ∧ (∀ c'', c'' ∈ tbl_person db → current_at group_id timestamp c'' →
                     (Person.created_at c'' ≤ Person.created_at c')%Z)
           ∧ get_person_as_of group_id timestamp db = Some (dict_of_person c'))
  ∧ (store_inv db →
     ∀ c, c ∈ tbl_person db → current_at group_id timestamp c →
          get_person_as_of group_id timestamp db = Some (dict_of_person c))
  ∧ ((∀ c, c ∈ tbl_person db → ¬ current_at group_id timestamp c) →
     (∀ h, h ∈ tbl_person_history db → covers group_id timestamp h →
        ∃ h', h' ∈ tbl_person_history db ∧ covers group_id timestamp h'
              ∧ (∀ h'', h'' ∈ tbl_person_history db →
                        covers group_id timestamp h'' →
                        (PersonHistory.valid_from h''
                         ≤ PersonHistory.valid_from h')%Z)
              ∧ get_person_as_of group_id timestamp db
                = Some (dict_of_history h'))
     ∧ ((∀ h, h ∈ tbl_person_history db → ¬ covers group_id timestamp h) →
        get_person_as_of group_id timestamp db = None)).
Proof.
  assert (Hlive : ∀ c, c ∈ tbl_person db → current_at group_id timestamp c →
     ∃ c', c' ∈ tbl_person db ∧ current_at group_id timestamp c'
           ∧ (∀ c'', c'' ∈ tbl_person db → current_at group_id timestamp c'' →
                     (Person.created_at c'' ≤ Person.created_at c')%Z)
           ∧ get_person_as_of group_id timestamp db = Some (dict_of_person c')).
  { unfold get_person_as_of. intros c Hc Hat.
    assert (Hin := proj2 (elem_of_current_at group_id timestamp db c) (conj Hc Hat)).
    destruct (first_order_by_is_Some (λ p, - Person.created_at p)%Z _ _ Hin)
      as [c' Hc'].
    rewrite Hc'.
    destruct (first_order_by_Some _ _ _ Hc') as [Hin' Hmin].
    apply elem_of_current_at in Hin' as [? ?].
    exists c'. split; [done|]. split; [done|]. split; [|done].
    intros c'' Hc'' Hat''.
    specialize (Hmin c'' (proj2 (elem_of_current_at _ _ _ _) (conj Hc'' Hat''))).
    simpl in Hmin. lia. }
  split; [exact Hlive|]. split.
  - intros [Hkeys Hone] c Hc Hat.
    destruct (Hlive c Hc Hat) as (c' & Hc' & Hat' & _ & ->).
    destruct Hat as (Hg & Hcur & _), Hat' as (Hg' & Hcur' & _).
    f_equal. f_equal.
    apply (NoDup_fmap_eq Person.id (tbl_person db) c' c
             (person_id_nodup _ Hkeys) Hc' Hc).
    apply Hone; try done. congruence.
  - unfold get_person_as_of. intros Hnone.
    assert (Hcur : first (order_by (λ p, - Person.created_at p)%Z
              (List.filter
                 (λ p, bool_decide (Person.group_id p = group_id)
                       && Person.is_current p
                       && (Person.created_at p <=? timestamp)%Z)
                 (tbl_person db))) = None).
    { apply first_order_by_None, elem_of_nil_inv.
      intros c [Hc Hat]%elem_of_current_at. by destruct (Hnone c Hc). }
    rewrite Hcur. split.
    + intros h Hh Hcov.
      assert (Hin := proj2 (elem_of_covers group_id timestamp db h) (conj Hh Hcov)).
      destruct (first_order_by_is_Some (λ h, - PersonHistory.valid_from h)%Z _ _ Hin)
        as [h' Hh'].
      rewrite Hh'.
      destruct (first_order_by_Some _ _ _ Hh') as [Hin' Hmin].
      apply elem_of_covers in Hin' as [? ?].
      exists h'. split; [done|]. split; [done|]. split; [|done].
      intros h'' Hh'' Hcov''.
      specialize (Hmin h'' (proj2 (elem_of_covers _ _ _ _) (conj Hh'' Hcov''))).
      simpl in Hmin. lia.
    + intros Hnoh.
      assert (Hhist : first (order_by (λ h, - PersonHistory.valid_from h)%Z
                (List.filter
                   (λ h, bool_decide (PersonHistory.group_id h = group_id)
                         && (PersonHistory.valid_from h <=? timestamp)%Z
                         && (timestamp <? PersonHistory.valid_to h)%Z)
                   (tbl_person_history db))) = None).
      { apply first_order_by_None, elem_of_nil_inv.
        intros h [Hh Hcov]%elem_of_covers. by destruct (Hnoh h Hh). }
      by rewrite Hhist.
Qed.

(** In [store_AB] the group 1 has a live record from time 30 and a history
    record for the interval from 10 to 30. *)
Lemma state_at_witness :
  (store_inv store_AB ∧ row_B ∈ tbl_person store_AB ∧ current_at 1 40 row_B
   ∧ get_person_as_of 1 40 store_AB = Some (dict_of_person row_B)
   ∧ ∃ c', c' ∈ tbl_person store_AB ∧ current_at 1 40 c'
           ∧ (∀ c'', c'' ∈ tbl_person store_AB → current_at 1 40 c'' →
                     (Person.created_at c'' ≤ Person.created_at c')%Z)
           ∧ get_person_as_of 1 40 store_AB = Some (dict_of_person c'))
  ∧ ((∀ c, c ∈ tbl_person store_AB → ¬ current_at 1 15 c)
     ∧ history_A ∈ tbl_person_history store_AB ∧ covers 1 15 history_A
     ∧ get_person_as_of 1 15 store_AB = Some (dict_of_history history_A)
     ∧ ∃ h', h' ∈ tbl_person_history store_AB ∧ covers 1 15 h'
             ∧ (∀ h'', h'' ∈ tbl_person_history store_AB → covers 1 15 h'' →
                       (PersonHistory.valid_from h''
                        ≤ PersonHistory.valid_from h')%Z)
             ∧ get_person_as_of 1 15 store_AB = Some (dict_of_history h'))
  ∧ ((∀ c, c ∈ tbl_person store_AB → ¬ current_at 1 5 c)
     ∧ (∀ h, h ∈ tbl_person_history store_AB → ¬ covers 1 5 h)
     ∧ get_person_as_of 1 5 store_AB = None).
Proof.
  assert (Hrows : ∀ c, c ∈ tbl_person store_AB →
            c = Person.set_is_current false row_A ∨ c = row_B).
  { intros c Hc. apply list_elem_of_In in Hc. vm_compute in Hc.
    destruct Hc as [<-|[<-|[]]]; [by left|by right]. }
  assert (Hhist : ∀ h, h ∈ tbl_person_history store_AB → h = history_A).
  { intros h Hh. apply list_elem_of_In in Hh. vm_compute in Hh.
    by destruct Hh as [<-|[]]. }
  assert (Hinv : store_inv store_AB)
    by exact (apply_all_inv null_default _ _ empty_store_inv).
  assert (HB : row_B ∈ tbl_person store_AB)
    by (vm_compute; apply list_elem_of_further, list_elem_of_here).
  assert (HA : history_A ∈ tbl_person_history store_AB)
    by (vm_compute; apply list_elem_of_here).
  assert (Hat : current_at 1 40 row_B) by (repeat split; simpl; lia).
  assert (Hcov : covers 1 15 history_A) by (repeat split; simpl; lia).
  assert (Hno15 : ∀ c, c ∈ tbl_person store_AB → ¬ current_at 1 15 c).
  { intros c [->| ->]%Hrows (_ & Hcur & Hle); simpl in *; [discriminate|lia]. }
  assert (Hno5 : ∀ c, c ∈ tbl_person store_AB → ¬ current_at 1 5 c).
  { intros c [->| ->]%Hrows (_ & Hcur & Hle); simpl in *; [discriminate|lia]. }
  assert (Hnoh5 : ∀ h, h ∈ tbl_person_history store_AB → ¬ covers 1 5 h).
  { intros h ->%Hhist (_ & Hle & _); simpl in *; lia. }
  split; [|split].
  - split; [exact Hinv|]. split; [exact HB|]. split; [exact Hat|].
    split; [exact (proj1 (proj2 (state_at 1 40 store_AB)) Hinv row_B HB Hat)|].
    exact (proj1 (state_at 1 40 store_AB) row_B HB Hat).
  - split; [exact Hno15|]. split; [exact HA|]. split; [exact Hcov|].
    split; [vm_compute; reflexivity|].
    exact (proj1 (proj2 (proj2 (state_at 1 15 store_AB)) Hno15)
             history_A HA Hcov).
  - split; [exact Hno5|]. split; [exact Hnoh5|].
    exact (proj2 (proj2 (proj2 (state_at 1 5 store_AB)) Hno5) Hnoh5).
Defined.

(** ** More about the matching query *)

Lemma find_matching_group_Ok (person_data : gmap string value) (db : Store)
    (group_id : option Z) :
  find_matching_group person_data db = Ok group_id →
  ∃ qs, matching_persons person_data db = Ok qs
        ∧ group_id = first (Person.group_id <$> order_by Person.group_id qs).
Proof.
  unfold find_matching_group.
  destruct (matching_persons person_data db) as [qs|] eqn:Hqs; [|done].
  intros [= <-]. by exists qs.
Qed.

Lemma matching_persons_Err (person_data : gmap string value) (db : Store)
    (e : error) :
  matching_persons person_data db = Err e →
  ∃ key, e = KeyError key ∧ person_data !! key = None
         ∧ key ∈ ["gender"; "first_name"; "last_name"; "address"].
Proof.
  unfold matching_persons, item.
  destruct (person_data !! "gender") as [g|] eqn:Hg;
    [|intros [= <-]; exists "gender"; split; [done|]; split; [done|]; set_solver].
  destruct (person_data !! "first_name") as [f|] eqn:Hf;
    [|intros [= <-]; exists "first_name"; split; [done|]; split; [done|];
      set_solver].
  simpl. case_bool_decide as Hmale.
  - destruct (person_data !! "last_name") as [l|] eqn:Hl;
      [|intros [= <-]; exists "last_name"; split; [done|]; split; [done|];
        set_solver].
    simpl. destruct (person_data !! "address") as [a|] eqn:Ha; [done|].
    intros [= <-]. exists "address". split; [done|]. split; [done|]. set_solver.
  - simpl. destruct (person_data !! "address") as [a|] eqn:Ha; [done|].
    intros [= <-]. exists "address". split; [done|]. split; [done|]. set_solver.
Qed.

(** X1. The query completes exactly on the snapshots that have the keys it
    indexes: gender, first_name and address, and last_name when the gender
    is male.  When it raises, it raises [KeyError] on one of these four
    keys, which the snapshot lacks. *)
Theorem find_matching_group_raises (person_data : gmap string value)
    (db : Store) :
  (indexed_keys person_data
   ↔ ∃ group_id, find_matching_group person_data db = Ok group_id)
  ∧ ∀ e, find_matching_group person_data db = Err e →
         ∃ key, e = KeyError key ∧ person_data !! key = None
                ∧ key ∈ ["gender"; "first_name"; "last_name"; "address"].
Proof.
  split; [split|].
  - intros Hkeys. destruct (matching_persons_Ok person_data db Hkeys) as [qs Hqs].
    rewrite (find_matching_group_first _ _ _ Hqs). eauto.
  - intros [group_id (qs & Hqs & _)%find_matching_group_Ok].
    by eapply matching_persons_keys.
  - intros e. unfold find_matching_group.
    destruct (matching_persons person_data db) as [qs|e'] eqn:Hqs; [done|].
    intros [= <-]. by eapply matching_persons_Err.
Qed.

(** Without its gender snapshot A raises; without its surname it does
    not, as it is not male. *)
Lemma find_matching_group_raises_witness :
  find_matching_group (delete "gender" snapshot_A) store_A
  = Err (KeyError "gender")
  ∧ (∃ key, KeyError "gender" = KeyError key
            ∧ delete "gender" snapshot_A !! key = None
            ∧ key ∈ ["gender"; "first_name"; "last_name"; "address"])
  ∧ indexed_keys (delete "last_name" snapshot_A)
  ∧ find_matching_group (delete "last_name" snapshot_A) store_A = Ok (Some 1%Z)
  ∧ ∃ group_id,
      find_matching_group (delete "last_name" snapshot_A) store_A = Ok group_id.
Proof.
  assert (Herr : find_matching_group (delete "gender" snapshot_A) store_A
                 = Err (KeyError "gender")) by (vm_compute; reflexivity).
  assert (Hkeys : indexed_keys (delete "last_name" snapshot_A)).
  { split; [|split; [|split]]; vm_compute; eauto. intros Hmale. discriminate Hmale. }
  split; [exact Herr|].
  split; [exact (proj2 (find_matching_group_raises _ store_A) _ Herr)|].
  split; [exact Hkeys|]. split; [vm_compute; reflexivity|].
  exact (proj1 (proj1 (find_matching_group_raises _ store_A)) Hkeys).
Defined.

(** X2. On a snapshot that has the indexed keys the query returns [None]
    exactly when no row of the table satisfies the matching predicate; a
    retired row never does. *)
Theorem no_match_iff (person_data : gmap string value) (db : Store) :
  indexed_keys person_data →
  (find_matching_group person_data db = Ok None
   ↔ ∀ p, p ∈ tbl_person db → ¬ matching_predicate person_data p)
  ∧ (∀ p, Person.is_current p = false → ¬ matching_predicate person_data p).
Proof.
  intros Hkeys.
  destruct (matching_persons_Ok person_data db Hkeys) as [qs Hqs].
  rewrite (find_matching_group_first _ _ _ Hqs).
  split; [split|].
  - intros [= Hnone] p Hp Hmatch.
    rewrite first_fmap in Hnone.
    destruct (first (order_by Person.group_id qs)) as [x|] eqn:Hfirst; [done|].
    apply first_order_by_None in Hfirst as ->.
    assert (Hin : p ∈ []) by (by apply (elem_of_matching_persons _ _ _ p Hqs)).
    by apply elem_of_nil in Hin.
  - intros Hnone. assert (qs = []) as ->; [|done].
    apply elem_of_nil_inv. intros p Hp.
    apply (elem_of_matching_persons _ _ _ p Hqs) in Hp as [Hp Hmatch].
    by apply (Hnone p).
  - intros p Hcur ((Hlive & _) & _). congruence.
Qed.

(** Snapshot C matches no record of the database that holds only A. *)
Lemma no_match_iff_witness :
  indexed_keys snapshot_C
  ∧ find_matching_group snapshot_C store_A = Ok None
  ∧ ∀ p, p ∈ tbl_person store_A → ¬ matching_predicate snapshot_C p.
Proof.
  assert (Hkeys : indexed_keys snapshot_C).
  { split; [|split; [|split]]; vm_compute; eauto. }
  assert (Hnone : find_matching_group snapshot_C store_A = Ok None)
    by (vm_compute; reflexivity).
  split; [exact Hkeys|]. split; [exact Hnone|].
  exact (proj1 (proj1 (no_match_iff snapshot_C store_A Hkeys)) Hnone).
Defined.

Lemma get_delete_ne (person_data : gmap string value) (key key' : string) :
  key ≠ key' → get (delete key person_data) key' = get person_data key'.
Proof. intros Hne. unfold get. by rewrite lookup_delete_ne. Qed.

Lemma get_delete_eq (person_data : gmap string value) (key : string) :
  get (delete key person_data) key = None.
Proof. unfold get. by rewrite lookup_delete_eq. Qed.

(** X3. A phone or an email that is [None] or the empty string counts as
    not given: the query selects the same records, and resolves to the same
    group, as for the snapshot without the key. *)
Theorem empty_contact_ignored (person_data : gmap string value) (db : Store) :
  (truthy (get person_data "phone") = false →
   matching_persons (delete "phone" person_data) db
   = matching_persons person_data db
   ∧ find_matching_group (delete "phone" person_data) db
     = find_matching_group person_data db)
  ∧ (truthy (get person_data "email") = false →
     matching_persons (delete "email" person_data) db
     = matching_persons person_data db
     ∧ find_matching_group (delete "email" person_data) db
       = find_matching_group person_data db).
Proof.
  split; intros Hfalse.
  - assert (Heq : matching_persons (delete "phone" person_data) db
                  = matching_persons person_data db).
    { unfold matching_persons, item.
      rewrite (get_delete_eq person_data "phone").
      rewrite (get_delete_ne person_data "phone" "middle_name"),
        (get_delete_ne person_data "phone" "email") by discriminate.
      rewrite (lookup_delete_ne person_data "phone" "gender"),
        (lookup_delete_ne person_data "phone" "first_name"),
        (lookup_delete_ne person_data "phone" "last_name"),
        (lookup_delete_ne person_data "phone" "address") by discriminate.
      by rewrite Hfalse. }
    split; [done|]. unfold find_matching_group. by rewrite Heq.
  - assert (Heq : matching_persons (delete "email" person_data) db
                  = matching_persons person_data db).
    { unfold matching_persons, item.
      rewrite (get_delete_eq person_data "email").
      rewrite (get_delete_ne person_data "email" "middle_name"),
        (get_delete_ne person_data "email" "phone") by discriminate.
      rewrite (lookup_delete_ne person_data "email" "gender"),
        (lookup_delete_ne person_data "email" "first_name"),
        (lookup_delete_ne person_data "email" "last_name"),
        (lookup_delete_ne person_data "email" "address") by discriminate.
      by rewrite Hfalse. }
    split; [done|]. unfold find_matching_group. by rewrite Heq.
Qed.

Lemma empty_contact_ignored_witness :
  truthy (get (<["phone" := Some ""]> snapshot_A) "phone") = false
  ∧ matching_persons (delete "phone" (<["phone" := Some ""]> snapshot_A)) store_A
    = matching_persons (<["phone" := Some ""]> snapshot_A) store_A
  ∧ find_matching_group (delete "phone" (<["phone" := Some ""]> snapshot_A)) store_A
    = find_matching_group (<["phone" := Some ""]> snapshot_A) store_A.
Proof.
  assert (Hfalse : truthy (get (<["phone" := Some ""]> snapshot_A) "phone") = false)
    by (vm_compute; reflexivity).
  split; [exact Hfalse|].
  exact (proj1 (empty_contact_ignored (<["phone" := Some ""]> snapshot_A) store_A)
           Hfalse).
Defined.

(** ** More about the versioning write *)

Lemma find_matching_group_fk (person_data : gmap string value) (db : Store)
    (group_id : Z) :
  keys_ok db →
  find_matching_group person_data db = Ok (Some group_id) →
  group_id ∈ tbl_person_group db.
Proof.
  intros Hkeys (qs & Hqs & Hfirst)%find_matching_group_Ok.
  rewrite first_fmap in Hfirst.
  destruct (first (order_by Person.group_id qs)) as [x|] eqn:Hx; [|done].
  injection Hfirst as ->.
  apply first_order_by_Some in Hx as [Hx _].
  apply (elem_of_matching_persons _ _ _ x Hqs) in Hx as [Hx _].
  by apply person_group_fk.
Qed.

Section more_create_person_facts.
Variable column_default : string → value.

(** A call completes when the query does, the group it names exists, and
    the snapshot has attribute keys only. *)
Lemma create_person_total (person_data : gmap string value)
    (change_set : option ChangeSet.t) (now_ts : Z) (db : Store)
    (group_id : option Z) :
  find_matching_group person_data db = Ok group_id →
  (∀ g, group_id = Some g → g ∈ tbl_person_group db) →
  dom person_data ⊆ attribute_columns →
  ∃ person db',
    create_person column_default person_data change_set now_ts db
    = Ok (person, db').
Proof.
  intros Hfind Hfk Hdom.
  unfold create_person, mbind, M_bind, query, mret, M_ret.
  destruct change_set as [c|]; simpl;
    match goal with
    | |- context [find_matching_group person_data ?db1] =>
        replace (find_matching_group person_data db1) with (Ok group_id)
          by (rewrite <- Hfind; by apply find_matching_group_ext)
    end;
    simpl;
    (destruct group_id as [g|]; [case_bool_decide|]);
    unfold PersonGroup.get, PersonGroup.create; simpl;
    rewrite ?(bool_decide_eq_true_2 _ (Hfk _ eq_refl)); simpl;
    unfold insert_person; rewrite (bool_decide_eq_true_2 _ Hdom); simpl;
    match goal with
    | |- context [first ?l] => destruct (first l)
    end; simpl; eauto.
Qed.

(** What a completed call does to the table of change sets. *)
Lemma create_person_change_set (person_data : gmap string value)
    (change_set : option ChangeSet.t) (now_ts : Z) (db db' : Store)
    (person : Person.t) :
  create_person column_default person_data change_set now_ts db
  = Ok (person, db') →
  match change_set with
  | None =>
      tbl_change_set db'
      = tbl_change_set db
        ++ [ChangeSet.mk (next_change_id db) (Some "system")
              (Some "API person creation")]
      ∧ Person.change person = Some (next_change_id db)
  | Some c =>
      tbl_change_set db' = tbl_change_set db
      ∧ Person.change person = Some (ChangeSet.id c)
  end.
Proof.
  unfold create_person, mbind, M_bind, query, mret, M_ret. intros H.
  destruct change_set as [c|]; simpl in H;
    (destruct (find_matching_group person_data _) as [gid|]; [|done]);
    simpl in H;
    match type of H with
    | match ?m with _ => _ end = _ =>
        destruct m as [[group db2]|] eqn:Hgrp; [|done]
    end;
    match type of Hgrp with
    | _ ?db1 = _ =>
        assert (tbl_change_set db2 = tbl_change_set db1) as Hcs;
        [destruct gid as [g|]; [case_bool_decide|];
         unfold PersonGroup.get, PersonGroup.create in Hgrp;
         try case_bool_decide; try done; by injection Hgrp as <- <-|]
    end;
    unfold insert_person in H; (case_bool_decide; [|done]); simpl in H;
    match type of H with
    | match match ?m with _ => _ end _ with _ => _ end = _ =>
        destruct m as [prev|]
    end;
    unfold save_is_current in H; simpl in H; injection H as <- <-; simpl;
    by rewrite Hcs.
Qed.

(** A completed call appends to the tables of groups and of history
    records, and keeps the primary keys of the persons in place. *)
Lemma create_person_grows (person_data : gmap string value)
    (change_set : option ChangeSet.t) (now_ts : Z) (db db' : Store)
    (person : Person.t) :
  create_person column_default person_data change_set now_ts db
  = Ok (person, db') →
  tbl_person_history db `prefix_of` tbl_person_history db'
  ∧ tbl_person_group db `prefix_of` tbl_person_group db'
  ∧ tbl_change_set db `prefix_of` tbl_change_set db'
  ∧ (Person.id <$> tbl_person db) `prefix_of` (Person.id <$> tbl_person db').
Proof.
  intros Hcall.
  pose proof (create_person_change_set _ _ _ _ _ _ Hcall) as Hcs.
  destruct (create_person_Ok _ _ _ _ _ _ _ Hcall)
    as (change & group & Hgroup & _ & _ & _ & Hprev).
  split; [|split; [|split]].
  - destruct (first _) as [prev|]; [destruct Hprev as [_ [id ->]]|
                                    destruct Hprev as [_ ->]];
      [by apply prefix_app_r|done].
  - destruct Hgroup as [(_ & _ & -> & _)|(_ & _ & -> & _)];
      [done|by apply prefix_app_r].
  - destruct change_set; destruct Hcs as [-> _]; [done|by apply prefix_app_r].
  - destruct (first _) as [prev|]; destruct Hprev as [-> _].
    + rewrite <- list_fmap_compose.
      rewrite (list_fmap_ext (Person.id ∘ update_is_current (Person.id prev) false)
                 Person.id)
        by (intros ? r _; apply update_is_current_id).
      rewrite fmap_app. by apply prefix_app_r.
    + rewrite fmap_app. by apply prefix_app_r.
Qed.
End more_create_person_facts.

(** X4. Given the keys the database guarantees, a call on a snapshot of
    attribute keys, with a change set of the table, completes exactly when
    the snapshot has the keys the query indexes; such a call never raises
    [DoesNotExist]: the group the query returns is always found. *)
Theorem create_person_completes (column_default : string → value)
    (person_data : gmap string value) (change_set : option ChangeSet.t)
    (now_ts : Z) (db : Store) :
  keys_ok db →
  well_formed person_data change_set db →
  (indexed_keys person_data
   ↔ ∃ person db',
       create_person column_default person_data change_set now_ts db
       = Ok (person, db'))
  ∧ create_person column_default person_data change_set now_ts db
    ≠ Err DoesNotExist.
Proof.
  intros Hkeys [Hsnapshot _].
  cut ((indexed_keys person_data ∧ dom person_data ⊆ attribute_columns
        ↔ ∃ person db',
            create_person column_default person_data change_set now_ts db
            = Ok (person, db'))
       ∧ create_person column_default person_data change_set now_ts db
         ≠ Err DoesNotExist); [tauto|].
  assert (Hiff : indexed_keys person_data ∧ dom person_data ⊆ attribute_columns
    ↔ ∃ person db',
        create_person column_default person_data change_set now_ts db
        = Ok (person, db')).
  { split.
    - intros [Hidx Hdom].
      destruct (matching_persons_Ok person_data db Hidx) as [qs Hqs].
      apply (create_person_total column_default _ _ _ _ _
               (find_matching_group_first _ _ _ Hqs)); [|done].
      intros g Hg. apply (find_matching_group_fk person_data db g Hkeys).
      by rewrite (find_matching_group_first _ _ _ Hqs), Hg.
    - intros (person & db' & Hcall).
      destruct (create_person_Ok _ _ _ _ _ _ _ Hcall)
        as (change & group & Hgroup & Hdom & _).
      split; [|done].
      destruct Hgroup as [(Hfind & _)|([Hfind|Hfind] & _)];
        apply find_matching_group_Ok in Hfind as (qs & Hqs & _);
        by eapply matching_persons_keys. }
  split; [exact Hiff|].
  intros Herr.
  destruct (find_matching_group person_data db) as [gid|e] eqn:Hfind.
  - destruct (decide (dom person_data ⊆ attribute_columns)) as [Hdom|Hdom].
    + destruct (create_person_total column_default person_data change_set
                  now_ts db gid Hfind) as (person & db' & Hcall); [|done|].
      * intros g ->. by apply (find_matching_group_fk person_data).
      * by rewrite Hcall in Herr.
    + revert Herr.
      unfold create_person, mbind, M_bind, query, mret, M_ret.
      destruct change_set as [c|]; simpl;
        match goal with
        | |- context [find_matching_group person_data ?db1] =>
            replace (find_matching_group person_data db1) with (Ok gid)
              by (rewrite <- Hfind; by apply find_matching_group_ext)
        end;
        simpl;
        (destruct gid as [g|]; [case_bool_decide|]);
        unfold PersonGroup.get, PersonGroup.create; simpl;
        rewrite ?(bool_decide_eq_true_2 _
                    (find_matching_group_fk person_data db _ Hkeys Hfind));
        simpl; unfold insert_person;
        rewrite (bool_decide_eq_false_2 _ Hdom); done.
  - revert Herr.
    assert (e ≠ DoesNotExist) as Hne.
    { unfold find_matching_group in Hfind.
      destruct (matching_persons person_data db) as [qs|e'] eqn:Hqs; [done|].
      injection Hfind as ->.
      apply matching_persons_Err in Hqs as (key & -> & _). done. }
    unfold create_person, mbind, M_bind, query, mret, M_ret.
    destruct change_set as [c|]; simpl;
      match goal with
      | |- context [find_matching_group person_data ?db1] =>
          replace (find_matching_group person_data db1) with (@Err (option Z) e)
            by (rewrite <- Hfind; by apply find_matching_group_ext)
      end;
      simpl; congruence.
Qed.

(** Snapshot B completes on the database that holds A. *)
Lemma create_person_completes_witness :
  keys_ok store_A
  ∧ well_formed snapshot_B None store_A
  ∧ indexed_keys snapshot_B
  ∧ (∃ person db',
       create_person null_default snapshot_B None 30 store_A = Ok (person, db'))
  ∧ create_person null_default snapshot_B None 30 store_A ≠ Err DoesNotExist.
Proof.
  assert (Hkeys : keys_ok store_A)
    by exact (proj1 (apply_all_inv null_default _ _ empty_store_inv)).
  assert (Hwf : well_formed snapshot_B None store_A) by well_formed_tac.
  assert (Hidx : indexed_keys snapshot_B).
  { split; [|split; [|split]]; vm_compute; eauto. }
  split; [exact Hkeys|]. split; [exact Hwf|]. split; [exact Hidx|].
  destruct (create_person_completes null_default snapshot_B None 30%Z store_A
              Hkeys Hwf) as [Hiff Hne].
  split; [exact (proj1 Hiff Hidx)|exact Hne].
Defined.

(** X5. A completed call on a snapshot of attribute keys, with a change
    set of the table, appends its row at the end of the table and leaves
    every earlier row in its place, either as it was or, for a live row of
    the group written to, with [is_current] set to false and no other
    column changed: it deletes no row and touches no other group. *)
Theorem create_person_frame (column_default : string → value)
    (person_data : gmap string value) (change_set : option ChangeSet.t)
    (now_ts : Z) (db db' : Store) (person : Person.t) :
  keys_ok db →
  well_formed person_data change_set db →
  create_person column_default person_data change_set now_ts db
  = Ok (person, db') →
  List.length (tbl_person db') = S (List.length (tbl_person db))
  ∧ tbl_person db' !! List.length (tbl_person db) = Some person
  ∧ ∀ (i : nat) r,
      tbl_person db !! i = Some r →
      tbl_person db' !! i = Some r
      ∨ (tbl_person db' !! i = Some (Person.set_is_current false r)
         ∧ Person.is_current r = true
         ∧ Person.group_id r = Person.group_id person).
Proof.
  intros Hkeys _ Hcall.
  destruct (create_person_Ok _ _ _ _ _ _ _ Hcall)
    as (change & group & _ & _ & Hperson & _ & Hprev).
  assert (Hid : Person.id person = next_person_id db) by (by rewrite Hperson).
  assert (Hpg : Person.group_id person = group) by (by rewrite Hperson).
  rewrite previous_query in Hprev by (by apply person_id_lt || done).
  destruct (first _) as [prev|] eqn:Hfirst; destruct Hprev as [Hrows _].
  - apply first_order_by_Some in Hfirst as [Hin _].
    apply elem_of_current_of in Hin as (Hin & Hprevg & Hprevc).
    assert (Hrows' : tbl_person db'
              = (update_is_current (Person.id prev) false <$> tbl_person db)
                ++ [person]).
    { rewrite Hrows, fmap_app. simpl.
      rewrite (update_is_current_ne _ _ person); [done|].
      apply (person_id_lt _ Hkeys) in Hin. lia. }
    rewrite Hrows'. split; [|split].
    + rewrite length_app, length_fmap. simpl. lia.
    + rewrite lookup_app_r by (by rewrite length_fmap).
      by rewrite length_fmap, Nat.sub_diag.
    + intros i r Hr.
      rewrite lookup_app_l
        by (rewrite length_fmap; by eapply lookup_lt_Some).
      rewrite list_lookup_fmap, Hr. simpl.
      unfold update_is_current. case_bool_decide as Heq; [|by left].
      right. split; [done|].
      assert (r = prev) as ->; [|by rewrite Hpg].
      apply (NoDup_fmap_eq Person.id (tbl_person db)); try done.
      * by apply person_id_nodup.
      * by eapply list_elem_of_lookup_2.
  - rewrite Hrows. split; [|split].
    + rewrite length_app. simpl. lia.
    + rewrite lookup_app_r by done. by rewrite Nat.sub_diag.
    + intros i r Hr. left.
      rewrite lookup_app_l by (by eapply lookup_lt_Some). done.
Qed.

Lemma create_person_frame_witness :
  keys_ok store_A
  ∧ well_formed snapshot_B None store_A
  ∧ create_person null_default snapshot_B None 30 store_A = Ok (row_B, store_AB)
  ∧ tbl_person store_A !! 0%nat = Some row_A
  ∧ List.length (tbl_person store_AB) = S (List.length (tbl_person store_A))
  ∧ tbl_person store_AB !! List.length (tbl_person store_A) = Some row_B
  ∧ (tbl_person store_AB !! 0%nat = Some row_A
     ∨ (tbl_person store_AB !! 0%nat = Some (Person.set_is_current false row_A)
        ∧ Person.is_current row_A = true
        ∧ Person.group_id row_A = Person.group_id row_B)).
Proof.
  assert (Hkeys : keys_ok store_A)
    by exact (proj1 (apply_all_inv null_default _ _ empty_store_inv)).
  assert (Hcall : create_person null_default snapshot_B None 30 store_A
                  = Ok (row_B, store_AB)) by (vm_compute; reflexivity).
  assert (Hrow : tbl_person store_A !! 0%nat = Some row_A)
    by (vm_compute; reflexivity).
  assert (Hwf : well_formed snapshot_B None store_A) by well_formed_tac.
  destruct (create_person_frame null_default snapshot_B None 30%Z store_A
              store_AB row_B Hkeys Hwf Hcall) as (Hlen & Hlast & Hframe).
  split; [exact Hkeys|]. split; [exact Hwf|].
  split; [exact Hcall|]. split; [exact Hrow|].
  split; [exact Hlen|]. split; [exact Hlast|].
  exact (Hframe 0%nat row_A Hrow).
Defined.

Lemma apply_all_grows (column_default : string → value) (calls : list call)
    (db : Store) :
  tbl_person_history db
    `prefix_of` tbl_person_history (apply_all column_default calls db)
  ∧ tbl_person_group db
      `prefix_of` tbl_person_group (apply_all column_default calls db)
  ∧ tbl_change_set db
      `prefix_of` tbl_change_set (apply_all column_default calls db)
  ∧ (Person.id <$> tbl_person db)
      `prefix_of` (Person.id <$> tbl_person (apply_all column_default calls db)).
Proof.
  revert db. induction calls as [|c calls IH]; intros db; simpl; [done|].
  destruct (create_person _ _ _ _ db) as [[person db']|] eqn:Hcall; [|apply IH].
  destruct (create_person_grows _ _ _ _ _ _ _ Hcall) as (H1 & H2 & H3 & H4).
  destruct (IH db') as (H1' & H2' & H3' & H4').
  repeat split; by etrans.
Qed.

(** X6. Whatever the calls, and from any database, the tables only grow
    at their end: the history records, the groups and the change sets that
    were there stay as they were and where they were, and so do the
    primary keys of the persons. *)
Theorem tables_only_grow (column_default : string → value)
    (calls : list call) (db : Store) :
  tbl_person_history db
    `prefix_of` tbl_person_history (apply_all column_default calls db)
  ∧ tbl_person_group db
      `prefix_of` tbl_person_group (apply_all column_default calls db)
  ∧ tbl_change_set db
      `prefix_of` tbl_change_set (apply_all column_default calls db)
  ∧ (Person.id <$> tbl_person db)
      `prefix_of` (Person.id <$> tbl_person (apply_all column_default calls db)).
Proof. apply apply_all_grows. Qed.

(** X7. On a snapshot of attribute keys, a completed call without a
    change set records one, by "system" for "API person creation", and a
    completed call with a change set of the table records none; the new
    row refers to that change set, and so does the history record the
    call adds: it never takes the change set of the record it retires. *)
Theorem change_set_attribution (column_default : string → value)
    (person_data : gmap string value) (change_set : option ChangeSet.t)
    (now_ts : Z) (db db' : Store) (person : Person.t) :
  well_formed person_data change_set db →
  create_person column_default person_data change_set now_ts db
  = Ok (person, db') →
  match change_set with
  | None =>
      tbl_change_set db'
      = tbl_change_set db
        ++ [ChangeSet.mk (next_change_id db) (Some "system")
              (Some "API person creation")]
      ∧ Person.change person = Some (next_change_id db)
  | Some c =>
      tbl_change_set db' = tbl_change_set db
      ∧ Person.change person = Some (ChangeSet.id c)
  end
  ∧ ∀ h, h ∈ tbl_person_history db' → h ∉ tbl_person_history db →
         PersonHistory.change h = Person.change person.
Proof.
  intros _ Hcall. split; [by eapply create_person_change_set|].
  destruct (create_person_Ok _ _ _ _ _ _ _ Hcall)
    as (change & group & _ & _ & Hperson & _ & Hprev).
  intros h Hin Hnew.
  destruct (first _) as [prev|]; [destruct Hprev as [_ [id Hhist]]|
                                  destruct Hprev as [_ Hhist]];
    rewrite Hhist in Hin; [|done].
  apply elem_of_app in Hin as [Hin| ->%list_elem_of_singleton]; [done|].
  by rewrite Hperson.
Qed.

(** Snapshot B, applied with the change set a clerk recorded to the
    database that holds A: the history record of A refers to the change
    set of the clerk, not to the change set 1 of A. *)
Lemma change_set_attribution_witness :
  create_change_set (Some "clerk") (Some "marriage") store_A
  = Ok (change_clerk, store_A_clerk)
  ∧ well_formed snapshot_B (Some change_clerk) store_A_clerk
  ∧ ∃ db',
      create_person null_default snapshot_B (Some change_clerk) 30
        store_A_clerk
      = Ok (Person.mk 2 1 (Some 2%Z) (Some "Petrova") (Some "Anna") None
              (Some "1990-01-01") (Some "Ж") (Some "123 Main") None None 30
              true,
            db')
      ∧ Person.change row_A = Some 1%Z
      ∧ tbl_change_set db' = tbl_change_set store_A_clerk
      ∧ tbl_person_history db' ≠ tbl_person_history store_A_clerk
      ∧ ∀ h, h ∈ tbl_person_history db' →
             h ∉ tbl_person_history store_A_clerk →
             PersonHistory.change h = Some 2%Z.
Proof.
  assert (Hwf : well_formed snapshot_B (Some change_clerk) store_A_clerk)
    by well_formed_tac.
  split; [vm_compute; reflexivity|]. split; [exact Hwf|].
  eexists.
  assert (Hcall :
    create_person null_default snapshot_B (Some change_clerk) 30 store_A_clerk
    = Ok (Person.mk 2 1 (Some 2%Z) (Some "Petrova") (Some "Anna") None
            (Some "1990-01-01") (Some "Ж") (Some "123 Main") None None 30 true,
          _)) by (vm_compute; reflexivity).
  split; [exact Hcall|]. split; [reflexivity|].
  destruct (change_set_attribution null_default _ _ _ _ _ _ Hwf Hcall)
    as [[Hcs _] Hhist].
  split; [exact Hcs|]. split; [vm_compute; discriminate|exact Hhist].
Defined.

(** ** The write and the reads together *)

Lemma get_person_as_of_current (group_id timestamp : Z) (db : Store)
    (c : Person.t) :
  store_inv db →
  c ∈ tbl_person db →
  current_at group_id timestamp c →
  get_person_as_of group_id timestamp db = Some (dict_of_person c).
Proof.
  intros [Hkeys Hone] Hc Hat. unfold get_person_as_of.
  assert (Hin := proj2 (elem_of_current_at group_id timestamp db c) (conj Hc Hat)).
  destruct (first_order_by_is_Some (λ p, - Person.created_at p)%Z _ _ Hin)
    as [c' Hc'].
  rewrite Hc'.
  apply first_order_by_Some in Hc' as [Hin' _].
  apply elem_of_current_at in Hin' as [Hc' Hat'].
  destruct Hat as (Hg & Hcur & _), Hat' as (Hg' & Hcur' & _).
  assert (c' = c) as ->; [|done].
  apply (NoDup_fmap_eq Person.id (tbl_person db) c' c
           (person_id_nodup _ Hkeys) Hc' Hc).
  apply Hone; try done. congruence.
Qed.

Lemma create_person_new_row (column_default : string → value)
    (person_data : gmap string value) (change_set : option ChangeSet.t)
    (now_ts : Z) (db db' : Store) (person : Person.t) :
  create_person column_default person_data change_set now_ts db
  = Ok (person, db') →
  person ∈ tbl_person db'
  ∧ Person.is_current person = true
  ∧ Person.created_at person = now_ts
  ∧ Person.id person = next_person_id db
  ∧ carries person_data person.
Proof.
  intros Hcall.
  destruct (create_person_Ok _ _ _ _ _ _ _ Hcall)
    as (change & group & _ & _ & Hperson & _ & Hprev).
  split; [|rewrite Hperson; repeat split; try done; apply new_person_carries].
  destruct (first _) as [prev|] eqn:Hfirst; destruct Hprev as [-> _].
  - apply first_order_by_Some in Hfirst as [Hin _].
    apply elem_of_filter_bool in Hin as [Hf _].
    apply andb_true_iff in Hf as [_ Hne%negb_true_iff%bool_decide_eq_false].
    rewrite fmap_app. apply elem_of_app. right. simpl.
    rewrite (update_is_current_ne _ _ person) by done. left.
  - apply elem_of_app. right. left.
Qed.

(** X9. After a completed call, on a snapshot of attribute keys and with
    a change set of the table, on a database that satisfies the invariant,
    the state of the group written to, as of the time of the call or any
    later time, is the row the call inserted, which carries the attributes
    of the snapshot. *)
Theorem read_your_write (column_default : string → value)
    (person_data : gmap string value) (change_set : option ChangeSet.t)
    (now_ts : Z) (db db' : Store) (person : Person.t) (timestamp : Z) :
  store_inv db →
  well_formed person_data change_set db →
  create_person column_default person_data change_set now_ts db
  = Ok (person, db') →
  (now_ts ≤ timestamp)%Z →
  get_person_as_of (Person.group_id person) timestamp db'
  = Some (dict_of_person person)
  ∧ carries person_data person.
Proof.
  intros Hinv _ Hcall Hle.
  destruct (create_person_new_row _ _ _ _ _ _ _ Hcall)
    as (Hin & Hcur & Hnow & _ & Hcarries).
  split; [|done].
  apply get_person_as_of_current; [by eapply create_person_inv|done|].
  split; [done|]. split; [done|]. lia.
Qed.

Lemma read_your_write_witness :
  store_inv store_A
  ∧ well_formed snapshot_B None store_A
  ∧ create_person null_default snapshot_B None 30 store_A = Ok (row_B, store_AB)
  ∧ (30 ≤ 45)%Z
  ∧ get_person_as_of (Person.group_id row_B) 45 store_AB
    = Some (dict_of_person row_B)
  ∧ carries snapshot_B row_B.
Proof.
  assert (Hinv : store_inv store_A)
    by exact (apply_all_inv null_default _ _ empty_store_inv).
  assert (Hcall : create_person null_default snapshot_B None 30 store_A
                  = Ok (row_B, store_AB)) by (vm_compute; reflexivity).
  assert (Hle : (30 ≤ 45)%Z) by lia.
  assert (Hwf : well_formed snapshot_B None store_A) by well_formed_tac.
  split; [exact Hinv|]. split; [exact Hwf|].
  split; [exact Hcall|]. split; [exact Hle|].
  exact (read_your_write null_default snapshot_B None 30%Z store_A store_AB
           row_B 45%Z Hinv Hwf Hcall Hle).
Defined.

Lemma new_person_matches (column_default : string → value)
    (person_data : gmap string value) (id group change now_ts : Z) :
  indexed_keys person_data →
  is_Some (person_data !! "middle_name") ∨ column_default "middle_name" = None →
  matching_predicate person_data
    (new_person column_default person_data id group change now_ts).
Proof.
  intros ([g Hg] & [f Hf] & Hl & [a Ha]) Hmid.
  unfold matching_predicate, same_person_condition, middle_name_condition,
    surname_condition, contact_condition, new_person, get. simpl.
  rewrite Hg, Hf, Ha. simpl. split; [done|]. split; [|split].
  - destruct Hmid as [[m ->]| ->]; [done|]. by destruct (person_data !! _).
  - intros Hmale. rewrite <- Hg in Hmale. destruct (Hl Hmale) as [l ->]. done.
  - split; [eauto|]. by left.
Qed.

(** X8. On a database that satisfies the invariant and whose group
    identifiers are not 0, a snapshot of attribute keys that was applied,
    with a change set of the table, resolves to the group it was written
    to, provided its own row equals it on the middle name (the snapshot
    has the key, or the column defaults to [NULL]).  So a second such
    call with the same snapshot writes to the same group and adds no
    group. *)
Theorem resolve_after_apply (column_default : string → value)
    (person_data : gmap string value) (change_set : option ChangeSet.t)
    (now_ts : Z) (db db' : Store) (person : Person.t) :
  store_inv db →
  0%Z ∉ tbl_person_group db →
  next_group_id db ≠ 0%Z →
  is_Some (person_data !! "middle_name") ∨ column_default "middle_name" = None →
  well_formed person_data change_set db →
  create_person column_default person_data change_set now_ts db
  = Ok (person, db') →
  find_matching_group person_data db' = Ok (Some (Person.group_id person))
  ∧ ∀ change_set2 now_ts2 person2 db'',
      recorded change_set2 db' →
      create_person column_default person_data change_set2 now_ts2 db'
      = Ok (person2, db'') →
      Person.group_id person2 = Person.group_id person
      ∧ tbl_person_group db'' = tbl_person_group db'.
Proof.
  intros [Hkeys Hone] Hzero Hnext Hmid _ Hcall.
  destruct (create_person_Ok _ _ _ _ _ _ _ Hcall)
    as (change & group & Hgroup & Hdom & Hperson & _ & _).
  destruct (create_person_step _ _ _ _ _ _ _ Hkeys Hone Hcall)
    as (f & Hrows & Hf & Hkeep & _ & _).
  destruct (create_person_new_row _ _ _ _ _ _ _ Hcall) as (Hin & _).
  assert (Hpg : Person.group_id person = group) by (by rewrite Hperson).
  assert (∃ gid, find_matching_group person_data db = Ok gid) as [gid Hfind].
  { destruct Hgroup as [(? & _)|([?|?] & _)]; eauto. }
  pose proof Hfind as (qs & Hqs & Hgid)%find_matching_group_Ok.
  pose proof (matching_persons_keys _ _ _ Hqs) as Hidx.
  assert (Hmatch : matching_predicate person_data person).
  { rewrite Hperson. by apply new_person_matches. }
  destruct (matching_persons_Ok person_data db' Hidx) as [qs' Hqs'].
  assert (Hin' : person ∈ qs')
    by (by apply (elem_of_matching_persons _ _ _ person Hqs')).
  destruct (first_order_by_is_Some Person.group_id qs' person Hin') as [x Hx].
  assert (Hfind' : find_matching_group person_data db'
                   = Ok (Some (Person.group_id x))).
  { rewrite (find_matching_group_first _ _ _ Hqs'). by rewrite first_fmap, Hx. }
  apply first_order_by_Some in Hx as [Hxin Hmin].
  assert (Hxg : Person.group_id x = Person.group_id person).
  { pose proof (Hmin person Hin') as Hle.
    apply (elem_of_matching_persons _ _ _ x Hqs') in Hxin as [Hxin Hxm].
    rewrite Hrows in Hxin.
    apply elem_of_app in Hxin as [Hxin| ->%list_elem_of_singleton]; [|done].
    apply list_elem_of_fmap in Hxin as (r & -> & Hr).
    assert (Hfr : f r = r) by (apply Hkeep; by destruct Hxm as ((? & _) & _)).
    rewrite Hfr in *.
    assert (Hrqs : r ∈ qs)
      by (by apply (elem_of_matching_persons _ _ _ r Hqs)).
    destruct (first_order_by_is_Some Person.group_id qs r Hrqs) as [y Hy].
    rewrite first_fmap, Hy in Hgid. simpl in Hgid. subst gid.
    apply first_order_by_Some in Hy as [Hyin Hymin].
    specialize (Hymin r Hrqs).
    destruct Hgroup as [(Hfind1 & _)|([Hfind1|Hfind1] & _)];
      rewrite Hfind in Hfind1; try done.
    - injection Hfind1 as Hyg. lia.
    - injection Hfind1 as Hyg. destruct Hzero. rewrite <- Hyg.
      apply (elem_of_matching_persons _ _ _ y Hqs) in Hyin as [Hyin _].
      by apply person_group_fk. }
  rewrite Hxg in Hfind'. split; [exact Hfind'|].
  intros change_set2 now_ts2 person2 db'' _ Hcall2.
  destruct (create_person_Ok _ _ _ _ _ _ _ Hcall2)
    as (change2 & group2 & Hgroup2 & _ & Hperson2 & _ & _).
  assert (Hpg2 : Person.group_id person2 = group2) by (by rewrite Hperson2).
  assert (Hnz : Person.group_id person ≠ 0%Z).
  { rewrite Hpg.
    destruct Hgroup as [(_ & Hg & _)|(_ & -> & _)]; [|done].
    intros ->. done. }
  destruct Hgroup2 as [(Hfind2 & _ & Hsame & _)|([Hfind2|Hfind2] & _)];
    rewrite Hfind' in Hfind2; [|done|congruence].
  injection Hfind2 as <-. by rewrite Hpg2.
Qed.

Lemma resolve_after_apply_witness :
  store_inv empty_store
  ∧ (0%Z ∉ tbl_person_group empty_store)
  ∧ next_group_id empty_store ≠ 0%Z
  ∧ (is_Some (snapshot_A !! "middle_name") ∨ null_default "middle_name" = None)
  ∧ well_formed snapshot_A None empty_store
  ∧ create_person null_default snapshot_A None 10 empty_store
    = Ok (row_A, store_A)
  ∧ find_matching_group snapshot_A store_A = Ok (Some (Person.group_id row_A))
  ∧ ∀ change_set2 now_ts2 person2 db'',
      recorded change_set2 store_A →
      create_person null_default snapshot_A change_set2 now_ts2 store_A
      = Ok (person2, db'') →
      Person.group_id person2 = Person.group_id row_A
      ∧ tbl_person_group db'' = tbl_person_group store_A.
Proof.
  assert (Hzero : 0%Z ∉ tbl_person_group empty_store)
    by (by intros ?%elem_of_nil).
  assert (Hnext : next_group_id empty_store ≠ 0%Z) by (simpl; lia).
  assert (Hmid : is_Some (snapshot_A !! "middle_name")
                 ∨ null_default "middle_name" = None) by (by right).
  assert (Hcall : create_person null_default snapshot_A None 10 empty_store
                  = Ok (row_A, store_A)) by (vm_compute; reflexivity).
  assert (Hwf : well_formed snapshot_A None empty_store) by well_formed_tac.
  split; [exact empty_store_inv|]. split; [exact Hzero|]. split; [exact Hnext|].
  split; [exact Hmid|]. split; [exact Hwf|]. split; [exact Hcall|].
  exact (resolve_after_apply null_default snapshot_A None 10%Z empty_store
           store_A row_A empty_store_inv Hzero Hnext Hmid Hwf Hcall).
Defined.

(** ** One live record for every group *)

Lemma NoDup_live_groups (l : list Person.t) :
  NoDup (Person.id <$> l) →
  (∀ p q, p ∈ l → q ∈ l → Person.is_current p = true →
          Person.is_current q = true →
          Person.group_id p = Person.group_id q → Person.id p = Person.id q) →
  NoDup (Person.group_id <$> List.filter Person.is_current l).
Proof.
  induction l as [|a l IH]; simpl; [intros; apply NoDup_nil_2|].
  intros [Ha Hl]%NoDup_cons Hone.
  assert (IH' : NoDup (Person.group_id <$> List.filter Person.is_current l)).
  { apply IH; [done|]. intros p q Hp Hq. apply Hone; by right. }
  destruct (Person.is_current a) eqn:Hcur; [|done]. simpl.
  apply NoDup_cons. split; [|done].
  intros (r & Hg & [Hrc Hr]%elem_of_filter_bool)%list_elem_of_fmap.
  apply Ha. rewrite (Hone a r); try done; [|left|by right].
  by apply list_elem_of_fmap_2.
Qed.

Section every_group_live_facts.
Variable column_default : string → value.

Lemma create_person_every_group_live (person_data : gmap string value)
    (change_set : option ChangeSet.t) (now_ts : Z) (db db' : Store)
    (person : Person.t) :
  store_inv db → every_group_live db →
  create_person column_default person_data change_set now_ts db
  = Ok (person, db') →
  every_group_live db'.
Proof.
  intros [Hkeys Hone] [Hnodup Hlive] Hcall.
  destruct (create_person_Ok _ _ _ _ _ _ _ Hcall)
    as (change & group & Hgroup & _ & Hperson & _ & _).
  destruct (create_person_step _ _ _ _ _ _ _ Hkeys Hone Hcall)
    as (f & Hrows & Hf & _ & _ & Hother).
  destruct (create_person_new_row _ _ _ _ _ _ _ Hcall) as (Hin & Hcur & _).
  assert (Hpg : Person.group_id person = group) by (by rewrite Hperson).
  assert (Hold : ∀ g, g ∈ tbl_person_group db' → g ≠ group →
                      g ∈ tbl_person_group db).
  { intros g Hg Hne.
    destruct Hgroup as [(_ & _ & Heq & _)|(_ & _ & Heq & _)];
      rewrite Heq in Hg; [done|].
    by apply elem_of_app in Hg as [?| ->%list_elem_of_singleton]. }
  split.
  - destruct Hgroup as [(_ & _ & -> & _)|(_ & -> & -> & _)]; [done|].
    apply NoDup_app. split; [done|]. split; [|apply NoDup_singleton].
    intros g Hg ->%list_elem_of_singleton.
    apply (group_id_lt _ Hkeys) in Hg. lia.
  - intros g Hg. destruct (decide (g = group)) as [->|Hne].
    + by exists person.
    + destruct (Hlive g (Hold g Hg Hne)) as (r & Hr & Hrg & Hrc).
      exists r. split; [|done]. rewrite Hrows. apply elem_of_app. left.
      apply list_elem_of_fmap. exists r. split; [|done].
      symmetry. apply Hother; [done|]. congruence.
Qed.

Lemma apply_all_every_group_live (calls : list call) (db : Store) :
  store_inv db → every_group_live db →
  every_group_live (apply_all column_default calls db).
Proof.
  revert db. induction calls as [|c calls IH]; intros db Hinv Hlive; simpl;
    [done|].
  destruct (create_person _ _ _ _ db) as [[person db']|] eqn:Hcall;
    [|by apply IH].
  apply IH; [by eapply create_person_inv|by eapply create_person_every_group_live].
Qed.
End every_group_live_facts.

Lemma empty_store_every_group_live : every_group_live empty_store.
Proof. split; [apply NoDup_nil_2|by intros g ?%elem_of_nil]. Qed.

(** X10. After any sequence of calls on the empty database, each on a
    snapshot of attribute keys and with a change set of the table, every
    group has exactly one live record, and [get_all_current_persons] lists
    one row for each group: the groups of its rows are the groups of the
    table, each once. *)
Theorem one_live_record_per_group (column_default : string → value)
    (calls : list call) :
  well_formed_calls column_default calls empty_store →
  (∀ g, g ∈ tbl_person_group (apply_all column_default calls empty_store) →
        ∃ p, current_of g (apply_all column_default calls empty_store) = [p])
  ∧ Person.group_id
      <$> get_all_current_persons (apply_all column_default calls empty_store)
    ≡ₚ tbl_person_group (apply_all column_default calls empty_store).
Proof.
  intros _.
  pose proof (apply_all_inv column_default calls _ empty_store_inv) as Hinv.
  pose proof (apply_all_every_group_live column_default calls _
                empty_store_inv empty_store_every_group_live) as [Hnodup Hlive].
  set (db := apply_all column_default calls empty_store) in *.
  split.
  - intros g Hg.
    pose proof (store_inv_at_most_one db g Hinv) as Hlen.
    destruct (Hlive g Hg) as (p & Hp & Hpg & Hpc).
    assert (Hin : p ∈ current_of g db) by (by apply elem_of_current_of).
    destruct (current_of g db) as [|x [|y l]]; simpl in Hlen;
      [by apply elem_of_nil in Hin|by exists x|lia].
  - destruct Hinv as [Hkeys Hone].
    apply NoDup_Permutation; [|done|].
    + unfold get_all_current_persons.
      apply NoDup_live_groups; [by apply person_id_nodup|done].
    + intros g. unfold get_all_current_persons.
      rewrite list_elem_of_fmap. split.
      * intros (p & -> & [_ Hp]%elem_of_filter_bool).
        by apply person_group_fk.
      * intros Hg. destruct (Hlive g Hg) as (p & Hp & Hpg & Hpc).
        exists p. split; [done|]. by apply elem_of_filter_bool.
Qed.

(** ** The chain of history records *)

Lemma chained_app (l : list PersonHistory.t) (h : PersonHistory.t) :
  chained l (PersonHistory.valid_from h) →
  (PersonHistory.valid_from h ≤ PersonHistory.valid_to h)%Z →
  chained (l ++ [h]) (PersonHistory.valid_to h).
Proof.
  intros Hl Hh. induction l as [|h1 l IH]; simpl; [done|].
  destruct Hl as (Hle & Hto & Hl). split; [done|]. split; [|by apply IH].
  by destruct l.
Qed.

Lemma chained_bounds (l : list PersonHistory.t) (last : Z) (h : PersonHistory.t) :
  chained l last → h ∈ l →
  (PersonHistory.valid_from h ≤ PersonHistory.valid_to h)%Z
  ∧ (PersonHistory.valid_to h ≤ last)%Z.
Proof.
  revert h. induction l as [|h1 l IH]; intros h; [by intros _ ?%elem_of_nil|].
  intros (Hle & Hto & Hl) [->|Hin]%elem_of_cons; [|by apply IH].
  split; [done|]. destruct l as [|h2 l]; [lia|].
  destruct (IH h2 Hl) as [? ?]; [left|]. lia.
Qed.

Lemma chained_head_le (h0 : PersonHistory.t) (l : list PersonHistory.t)
    (last : Z) (h : PersonHistory.t) :
  chained (h0 :: l) last → h ∈ l →
  (PersonHistory.valid_to h0 ≤ PersonHistory.valid_from h)%Z.
Proof.
  revert h0. induction l as [|h1 l IH]; intros h0; [by intros _ ?%elem_of_nil|].
  intros (Hle0 & Hto0 & Hl) [->|Hin]%elem_of_cons; [lia|].
  specialize (IH h1 Hl Hin). destruct Hl as (Hle1 & _). lia.
Qed.

Lemma chained_order_by (l : list PersonHistory.t) (last : Z) :
  chained l last → order_by PersonHistory.valid_from l = l.
Proof.
  induction l as [|h1 l IH]; simpl; [done|].
  intros (Hle & Hto & Hl). rewrite (IH Hl).
  destruct l as [|h2 l]; simpl; [done|].
  by rewrite (proj2 (Z.leb_le _ _)) by lia.
Qed.

(** In a chain at most one record holds a given time. *)
Lemma chained_covers_eq (l : list PersonHistory.t) (last t : Z)
    (h h' : PersonHistory.t) :
  chained l last → h ∈ l → h' ∈ l →
  (PersonHistory.valid_from h ≤ t < PersonHistory.valid_to h)%Z →
  (PersonHistory.valid_from h' ≤ t < PersonHistory.valid_to h')%Z →
  h = h'.
Proof.
  induction l as [|h1 l IH]; [by intros _ ?%elem_of_nil|].
  intros Hl [->|Hin]%elem_of_cons [->|Hin']%elem_of_cons Ht Ht'; [done| | |].
  - pose proof (chained_head_le _ _ _ _ Hl Hin'). lia.
  - pose proof (chained_head_le _ _ _ _ Hl Hin). lia.
  - destruct Hl as (_ & _ & Hl). by apply IH.
Qed.

(** A chain holds every time from its start to its end. *)
Lemma chained_covers (h0 : PersonHistory.t) (l : list PersonHistory.t)
    (last t : Z) :
  chained (h0 :: l) last →
  (PersonHistory.valid_from h0 ≤ t < last)%Z →
  ∃ h, h ∈ h0 :: l
       ∧ (PersonHistory.valid_from h ≤ t < PersonHistory.valid_to h)%Z.
Proof.
  revert h0. induction l as [|h1 l IH]; intros h0 (Hle & Hto & Hl) Ht.
  - exists h0. split; [left|]. lia.
  - destruct (Z.lt_ge_cases t (PersonHistory.valid_to h0)) as [Hlt|Hge].
    + exists h0. split; [left|]. lia.
    + destruct (IH h1 Hl) as (h & Hin & Hh); [lia|].
      exists h. split; [by right|done].
Qed.

Lemma filter_fmap_keep {A} (P : A → bool) (f : A → A) (l : list A) :
  (∀ r, r ∈ l → P (f r) = P r ∧ (P r = true → f r = r)) →
  List.filter P (f <$> l) = List.filter P l.
Proof.
  induction l as [|a l IH]; [done|]. intros Hf.
  rewrite fmap_cons. cbn [List.filter].
  destruct (Hf a) as [HP Hkeep]; [left|]. rewrite HP.
  rewrite IH by (intros r Hr; apply Hf; by right).
  destruct (P a) eqn:Ha; [|done]. by rewrite (Hkeep eq_refl).
Qed.

Section temporal_facts.
Variable column_default : string → value.

(** The live records of every group after a completed call. *)
Lemma create_person_current_of (person_data : gmap string value)
    (change_set : option ChangeSet.t) (now_ts : Z) (db db' : Store)
    (person : Person.t) (g : Z) :
  store_inv db →
  create_person column_default person_data change_set now_ts db
  = Ok (person, db') →
  current_of g db'
  = if bool_decide (g = Person.group_id person) then [person]
    else current_of g db.
Proof.
  intros [Hkeys Hone] Hcall.
  destruct (create_person_step _ _ _ _ _ _ _ Hkeys Hone Hcall)
    as (f & Hrows & Hf & Hkeep & Hretire & Hother).
  destruct (create_person_new_row _ _ _ _ _ _ _ Hcall) as (_ & Hcur & _).
  unfold current_of. rewrite Hrows, List.filter_app. simpl. rewrite Hcur.
  case_bool_decide as Hg.
  - subst g. rewrite (bool_decide_eq_true_2 _ eq_refl). simpl.
    match goal with
    | |- ?l ++ _ = _ => assert (l = []) as ->; [|done]
    end.
    apply elem_of_nil_inv.
    intros x [Hx (r & -> & Hr)%list_elem_of_fmap]%elem_of_filter_bool.
    apply andb_true_iff in Hx as [Hxg%bool_decide_eq_true Hxc].
    destruct (Hf r) as [_ Hfg]. rewrite Hfg in Hxg.
    by rewrite (Hretire r Hr Hxg) in Hxc.
  - rewrite (bool_decide_eq_false_2 (g = Person.group_id person)) by congruence.
    simpl. rewrite app_nil_r. apply filter_fmap_keep.
    intros r Hr. destruct (Hf r) as [_ Hfg]. rewrite Hfg.
    destruct (decide (Person.group_id r = Person.group_id person)) as [Heq|Hne].
    + rewrite (bool_decide_eq_false_2 (Person.group_id r = g))
        by congruence.
      done.
    + by rewrite (Hother r Hr Hne).
Qed.

(** The history of every group after a completed call. *)
Lemma create_person_history_of (person_data : gmap string value)
    (change_set : option ChangeSet.t) (now_ts : Z) (db db' : Store)
    (person : Person.t) (g : Z) :
  store_inv db →
  create_person column_default person_data change_set now_ts db
  = Ok (person, db') →
  (g ≠ Person.group_id person ∨ current_of g db = []) ∧
  history_of g db' = history_of g db
  ∨ ∃ prev h,
      g = Person.group_id person
      ∧ current_of g db = [prev]
      ∧ history_of g db' = history_of g db ++ [h]
      ∧ PersonHistory.valid_from h = Person.created_at prev
      ∧ PersonHistory.valid_to h = now_ts
      ∧ copies prev h.
Proof.
  intros Hinv Hcall. pose proof Hinv as [Hkeys Hone].
  destruct (create_person_Ok _ _ _ _ _ _ _ Hcall)
    as (change & group & _ & _ & Hperson & _ & Hprev).
  assert (Hpg : Person.group_id person = group) by (by rewrite Hperson).
  rewrite previous_query in Hprev
    by (by apply person_id_lt || by rewrite Hperson).
  unfold history_of.
  destruct (first _) as [prev|] eqn:Hfirst.
  - destruct Hprev as [_ [id ->]]. rewrite List.filter_app. simpl.
    case_bool_decide as Hg.
    + right. simpl in Hg. subst group. subst g.
      apply first_order_by_Some in Hfirst as [Hin _].
      pose proof (store_inv_at_most_one db (Person.group_id person) Hinv)
        as Hlen.
      destruct (current_of (Person.group_id person) db) as [|x [|y l]] eqn:Hl;
        simpl in Hlen; [by apply elem_of_nil in Hin| |lia].
      apply list_elem_of_singleton in Hin as ->.
      eexists x, _. split; [done|]. split; [done|]. split; [done|].
      simpl. by repeat split.
    + left. rewrite app_nil_r. split; [|done]. left. simpl in Hg. congruence.
  - destruct Hprev as [_ ->]. left. split; [|done].
    apply first_order_by_None in Hfirst.
    destruct (decide (g = Person.group_id person)) as [->|Hne];
      [right; by rewrite Hpg|by left].
Qed.

Lemma create_person_temporal_inv (person_data : gmap string value)
    (change_set : option ChangeSet.t) (now_ts bound : Z) (db db' : Store)
    (person : Person.t) :
  store_inv db → temporal_inv db → clock_bound bound db →
  (bound ≤ now_ts)%Z →
  create_person column_default person_data change_set now_ts db
  = Ok (person, db') →
  temporal_inv db' ∧ clock_bound now_ts db'.
Proof.
  intros Hinv Htemp Hclock Hle Hcall. pose proof Hinv as [Hkeys Hone].
  destruct (create_person_new_row _ _ _ _ _ _ _ Hcall)
    as (Hin & Hcur & Hnow & _).
  split.
  - intros g.
    rewrite (create_person_current_of _ _ _ _ _ _ g Hinv Hcall).
    destruct (create_person_history_of _ _ _ _ _ _ g Hinv Hcall)
      as [[Hcase ->]|(prev & h & -> & Hprev & -> & Hfrom & Hto & _)].
    + destruct (Htemp g) as [Hnil|(p & Hp & Hchain)]; [by left|].
      destruct Hcase as [Hne|Hnone]; [|rewrite Hnone in Hp;
                                       by apply elem_of_nil in Hp].
      right. exists p. by rewrite (bool_decide_eq_false_2 _ Hne).
    + right. exists person. rewrite (bool_decide_eq_true_2 _ eq_refl).
      split; [left|]. rewrite Hnow, <- Hto.
      assert (Hprevin : prev ∈ current_of (Person.group_id person) db)
        by (rewrite Hprev; left).
      apply chained_app.
      * destruct (Htemp (Person.group_id person)) as [->|(p & Hp & Hchain)];
          [done|].
        rewrite Hprev in Hp. apply list_elem_of_singleton in Hp as ->.
        by rewrite Hfrom.
      * rewrite Hfrom, Hto.
        apply elem_of_current_of in Hprevin as (Hprevin & _).
        specialize (Hclock prev Hprevin). lia.
  - intros p Hp.
    destruct (create_person_step _ _ _ _ _ _ _ Hkeys Hone Hcall)
      as (f & Hrows & Hf & Hkeep & _ & _).
    destruct (create_person_Ok _ _ _ _ _ _ _ Hcall)
      as (change & group & _ & _ & _ & _ & Hprev).
    rewrite previous_query in Hprev
      by (by apply person_id_lt
          || by destruct (create_person_new_row _ _ _ _ _ _ _ Hcall)
               as (_ & _ & _ & ? & _)).
    assert (Hcreated : ∃ r, (r ∈ tbl_person db ∨ r = person)
                            ∧ Person.created_at p = Person.created_at r).
    { destruct (first _) as [prev|]; destruct Hprev as [Hrows' _];
        rewrite Hrows' in Hp.
      - apply list_elem_of_fmap in Hp as (r & -> & Hr).
        exists r. split.
        + by apply elem_of_app in Hr as [?| ->%list_elem_of_singleton];
            [left|right].
        + unfold update_is_current. by case_bool_decide.
      - exists p. split; [|done].
        by apply elem_of_app in Hp as [?| ->%list_elem_of_singleton];
          [left|right]. }
    destruct Hcreated as (r & [Hr| ->] & ->); [|lia].
    specialize (Hclock r Hr). lia.
Qed.

Lemma apply_all_temporal_inv (calls : list call) (bound : Z) (db : Store) :
  store_inv db → temporal_inv db → clock_bound bound db →
  clock_from bound calls →
  temporal_inv (apply_all column_default calls db).
Proof.
  revert bound db.
  induction calls as [|c calls IH]; intros bound db Hinv Htemp Hclock Hfrom;
    simpl; [done|].
  destruct Hfrom as [Hle Hfrom].
  destruct (create_person _ _ _ _ db) as [[person db']|] eqn:Hcall.
  - destruct (create_person_temporal_inv _ _ _ _ _ _ _ Hinv Htemp Hclock Hle
                Hcall) as [Htemp' Hclock'].
    apply (IH (call_now c)); try done. by eapply create_person_inv.
  - apply (IH (call_now c)); try done.
    intros p Hp. specialize (Hclock p Hp). lia.
Qed.
End temporal_facts.

Lemma empty_store_temporal_inv : temporal_inv empty_store.
Proof. intros g. by left. Qed.

Lemma get_person_as_of_no_current (group_id timestamp : Z) (db : Store) :
  (∀ c, c ∈ tbl_person db → ¬ current_at group_id timestamp c) →
  get_person_as_of group_id timestamp db
  = dict_of_history
      <$> first (order_by (λ h, - PersonHistory.valid_from h)%Z
                   (List.filter
                      (λ h, bool_decide (PersonHistory.group_id h = group_id)
                            && (PersonHistory.valid_from h <=? timestamp)%Z
                            && (timestamp <? PersonHistory.valid_to h)%Z)
                      (tbl_person_history db))).
Proof.
  intros Hnone. unfold get_person_as_of.
  assert (Hcur : first (order_by (λ p, - Person.created_at p)%Z
            (List.filter
               (λ p, bool_decide (Person.group_id p = group_id)
                     && Person.is_current p
                     && (Person.created_at p <=? timestamp)%Z)
               (tbl_person db))) = None).
  { apply first_order_by_None, elem_of_nil_inv.
    intros c [Hc Hat]%elem_of_current_at. by destruct (Hnone c Hc). }
  rewrite Hcur. by destruct (first _).
Qed.

Lemma elem_of_history_of (group_id : Z) (db : Store) (h : PersonHistory.t) :
  h ∈ history_of group_id db
  ↔ h ∈ tbl_person_history db ∧ PersonHistory.group_id h = group_id.
Proof.
  unfold history_of. rewrite elem_of_filter_bool, bool_decide_eq_true. tauto.
Qed.

Lemma clock_strictly_from_weaken (now : Z) (calls : list call) :
  clock_strictly_from now calls → clock_from now calls.
Proof.
  revert now. induction calls as [|c calls IH]; intros now; simpl; [done|].
  intros [Hlt Hfrom]. split; [lia|by apply IH].
Qed.

Lemma create_person_intervals_open (column_default : string → value)
    (person_data : gmap string value) (change_set : option ChangeSet.t)
    (now_ts bound : Z) (db db' : Store) (person : Person.t) :
  store_inv db → intervals_open db → clock_bound bound db →
  (bound < now_ts)%Z →
  create_person column_default person_data change_set now_ts db
  = Ok (person, db') →
  intervals_open db'.
Proof.
  intros Hinv Hopen Hclock Hlt Hcall h Hh.
  assert (Hin : h ∈ history_of (PersonHistory.group_id h) db')
    by (by apply elem_of_history_of).
  destruct (create_person_history_of column_default _ _ _ _ _ _
              (PersonHistory.group_id h) Hinv Hcall)
    as [[_ Heq]|(prev & h' & _ & Hprev & Heq & Hfrom & Hto & _)];
    rewrite Heq in Hin.
  - apply elem_of_history_of in Hin as [Hin _]. by apply Hopen.
  - apply elem_of_app in Hin as [Hin| ->%list_elem_of_singleton].
    + apply elem_of_history_of in Hin as [Hin _]. by apply Hopen.
    + assert (Hp : prev ∈ current_of (PersonHistory.group_id h') db)
        by (rewrite Hprev; left).
      apply elem_of_current_of in Hp as (Hp & _).
      specialize (Hclock prev Hp). lia.
Qed.

Lemma apply_all_intervals_open (column_default : string → value)
    (calls : list call) (bound : Z) (db : Store) :
  store_inv db → temporal_inv db → intervals_open db → clock_bound bound db →
  clock_strictly_from bound calls →
  intervals_open (apply_all column_default calls db).
Proof.
  revert bound db.
  induction calls as [|c calls IH];
    intros bound db Hinv Htemp Hopen Hclock Hfrom; simpl; [done|].
  destruct Hfrom as [Hlt Hfrom].
  destruct (create_person _ _ _ _ db) as [[person db']|] eqn:Hcall.
  - assert (Hle : (bound ≤ call_now c)%Z) by lia.
    destruct (create_person_temporal_inv column_default _ _ _ bound _ _ _
                Hinv Htemp Hclock Hle Hcall) as [Htemp' Hclock'].
    apply (IH (call_now c)); try done.
    + by eapply create_person_inv.
    + by eapply create_person_intervals_open.
  - apply (IH (call_now c)); try done.
    intros p Hp. specialize (Hclock p Hp). lia.
Qed.

Lemma empty_store_intervals_open : intervals_open empty_store.
Proof. by intros h ?%elem_of_nil. Qed.

(** In a chain of intervals that are not empty no two begin at the same
    time. *)
Lemma chained_NoDup (l : list PersonHistory.t) (last : Z) :
  chained l last →
  (∀ h, h ∈ l → (PersonHistory.valid_from h < PersonHistory.valid_to h)%Z) →
  NoDup (PersonHistory.valid_from <$> l).
Proof.
  induction l as [|h0 l IH]; simpl; [intros; apply NoDup_nil_2|].
  intros Hchain Hopen. apply NoDup_cons. split.
  - intros (h & Heq & Hin)%list_elem_of_fmap.
    pose proof (chained_head_le _ _ _ _ Hchain Hin).
    assert (Hin0 : h0 ∈ h0 :: l) by left.
    pose proof (Hopen h0 Hin0). lia.
  - destruct Hchain as (_ & _ & Hchain). apply IH; [done|].
    intros h Hin. apply Hopen. by right.
Qed.

Lemma reachable_invariants (column_default : string → value)
    (calls : list call) (start : Z) :
  clock_from start calls →
  store_inv (apply_all column_default calls empty_store)
  ∧ temporal_inv (apply_all column_default calls empty_store).
Proof.
  intros Hclock. split; [apply apply_all_inv, empty_store_inv|].
  apply (apply_all_temporal_inv column_default calls start);
    [apply empty_store_inv|apply empty_store_temporal_inv| |done].
  by intros p ?%elem_of_nil.
Qed.

Lemma current_of_singleton (db : Store) (g : Z) (p : Person.t) :
  store_inv db → p ∈ current_of g db → current_of g db = [p].
Proof.
  intros Hinv Hp. pose proof (store_inv_at_most_one db g Hinv) as Hlen.
  destruct (current_of g db) as [|x [|y l]]; simpl in Hlen;
    [by apply elem_of_nil in Hp| |lia].
  by apply list_elem_of_singleton in Hp as ->.
Qed.

(** X11. With clock readings that go forward, after any sequence of
    calls on the empty database, each on a snapshot of attribute keys and
    with a change set of the table, [get_person_history] returns the
    history records of the group in the order they were written; no two
    of them begin at the same time, so that order is the one order by
    [valid_from]; and they form a chain without gaps or overlaps: each
    begins where the one before ends, and the last ends at the creation of
    the live record of the group. *)
Theorem history_is_a_chain (column_default : string → value)
    (calls : list call) (start : Z) (g : Z) :
  well_formed_calls column_default calls empty_store →
  clock_strictly_from start calls →
  get_person_history g (apply_all column_default calls empty_store)
  = history_of g (apply_all column_default calls empty_store)
  ∧ NoDup (PersonHistory.valid_from
             <$> history_of g (apply_all column_default calls empty_store))
  ∧ (get_person_history g (apply_all column_default calls empty_store) = []
     ∨ ∃ p,
         current_of g (apply_all column_default calls empty_store) = [p]
         ∧ chained
             (get_person_history g (apply_all column_default calls empty_store))
             (Person.created_at p)).
Proof.
  intros _ Hstrict.
  pose proof (clock_strictly_from_weaken _ _ Hstrict) as Hclock.
  destruct (reachable_invariants column_default calls start Hclock)
    as [Hinv Htemp].
  assert (Hopen : intervals_open (apply_all column_default calls empty_store)).
  { apply (apply_all_intervals_open column_default calls start);
      [apply empty_store_inv|apply empty_store_temporal_inv
      |apply empty_store_intervals_open| |done].
    by intros p ?%elem_of_nil. }
  set (db := apply_all column_default calls empty_store) in *.
  unfold get_person_history. fold (history_of g db).
  destruct (Htemp g) as [->|(p & Hp & Hchain)].
  { split; [done|]. split; [apply NoDup_nil_2|by left]. }
  rewrite (chained_order_by _ _ Hchain). split; [done|]. split.
  - apply (chained_NoDup _ _ Hchain).
    intros h [Hh _]%elem_of_history_of. by apply Hopen.
  - right. exists p. split; [by apply current_of_singleton|done].
Qed.

Lemma history_is_a_chain_witness :
  well_formed_calls null_default
    [mkCall snapshot_A None 10; mkCall snapshot_B None 30] empty_store
  ∧ clock_strictly_from 0 [mkCall snapshot_A None 10; mkCall snapshot_B None 30]
  ∧ get_person_history 1 store_AB = [history_A]
  ∧ get_person_history 1 store_AB = history_of 1 store_AB
  ∧ NoDup (PersonHistory.valid_from <$> history_of 1 store_AB)
  ∧ (get_person_history 1 store_AB = []
     ∨ ∃ p, current_of 1 store_AB = [p]
            ∧ chained (get_person_history 1 store_AB) (Person.created_at p)).
Proof.
  assert (Hcalls : well_formed_calls null_default
            [mkCall snapshot_A None 10; mkCall snapshot_B None 30] empty_store)
    by well_formed_tac.
  assert (Hclock : clock_strictly_from 0
            [mkCall snapshot_A None 10; mkCall snapshot_B None 30])
    by (simpl; lia).
  split; [exact Hcalls|].
  split; [exact Hclock|]. split; [vm_compute; reflexivity|].
  exact (history_is_a_chain null_default
           [mkCall snapshot_A None 10; mkCall snapshot_B None 30] 0%Z 1%Z
           Hcalls Hclock).
Defined.

(** X12. With clock readings that do not go back, after any sequence of
    calls on the empty database, each on a snapshot of attribute keys and
    with a change set of the table, the state of a group with a live record is
    known exactly from the start of its first record on: from the start of
    its oldest history record, or from the creation of the live record
    when it has no history. *)
Theorem state_at_coverage (column_default : string → value)
    (calls : list call) (start : Z) (g : Z) (p : Person.t) (timestamp : Z) :
  well_formed_calls column_default calls empty_store →
  clock_from start calls →
  current_of g (apply_all column_default calls empty_store) = [p] →
  is_Some (get_person_as_of g timestamp
             (apply_all column_default calls empty_store))
  ↔ (match get_person_history g (apply_all column_default calls empty_store)
     with
     | [] => Person.created_at p
     | h :: _ => PersonHistory.valid_from h
     end ≤ timestamp)%Z.
Proof.
  intros _ Hclock Hcur.
  destruct (reachable_invariants column_default calls start Hclock)
    as [Hinv Htemp].
  set (db := apply_all column_default calls empty_store) in *.
  assert (Hp : p ∈ current_of g db) by (rewrite Hcur; left).
  pose proof Hp as (Hpin & Hpg & Hpc)%elem_of_current_of.
  assert (Hlive : ∀ c, c ∈ tbl_person db → Person.group_id c = g →
                       Person.is_current c = true → c = p).
  { intros c Hc Hcg Hcc.
    assert (Hin : c ∈ current_of g db) by (by apply elem_of_current_of).
    rewrite Hcur in Hin. by apply list_elem_of_singleton in Hin. }
  assert (Hchain : chained (history_of g db) (Person.created_at p)).
  { destruct (Htemp g) as [->|(p0 & Hp0 & Hchain)]; [done|].
    rewrite Hcur in Hp0. by apply list_elem_of_singleton in Hp0 as ->. }
  unfold get_person_history. fold (history_of g db).
  rewrite (chained_order_by _ _ Hchain).
  destruct (Z.le_gt_cases (Person.created_at p) timestamp) as [Hle|Hgt].
  - rewrite (get_person_as_of_current g timestamp db p Hinv Hpin)
      by (by split; [|split]).
    split; [intros _|by eauto].
    destruct (history_of g db) as [|h0 l] eqn:Hl; [done|].
    destruct (chained_bounds _ _ h0 Hchain) as [? ?]; [left|]. lia.
  - rewrite get_person_as_of_no_current.
    2:{ intros c Hc (Hcg & Hcc & Hct). rewrite (Hlive c Hc Hcg Hcc) in Hct. lia. }
    destruct (history_of g db) as [|h0 l] eqn:Hl.
    + split; [|lia]. unfold history_of in Hl.
      assert (Hnil : List.filter
                (λ h, bool_decide (PersonHistory.group_id h = g)
                      && (PersonHistory.valid_from h <=? timestamp)%Z
                      && (timestamp <? PersonHistory.valid_to h)%Z)
                (tbl_person_history db) = []).
      { apply elem_of_nil_inv. intros h [Hh (Hhg & _)]%elem_of_covers.
        assert (Hin : h ∈ history_of g db) by (by apply elem_of_history_of).
        unfold history_of in Hin. rewrite Hl in Hin.
        by apply elem_of_nil in Hin. }
      rewrite Hnil. simpl. by intros [? ?].
    + split.
      * intros [d Hd]. apply fmap_Some in Hd as (h & Hh & _).
        apply first_order_by_Some in Hh as [Hh _].
        apply elem_of_covers in Hh as (Hh & Hhg & Hfrom & _).
        assert (Hin : h ∈ history_of g db) by (by apply elem_of_history_of).
        rewrite Hl in Hin. apply elem_of_cons in Hin as [->|Hin]; [done|].
        pose proof (chained_head_le _ _ _ _ Hchain Hin).
        destruct Hchain as (? & _). lia.
      * intros Hfrom.
        destruct (chained_covers h0 l _ timestamp Hchain) as (h & Hin & Hh);
          [lia|].
        rewrite <- Hl in Hin. apply elem_of_history_of in Hin as [Hin Hhg].
        assert (Hcov : h ∈ List.filter
                  (λ h, bool_decide (PersonHistory.group_id h = g)
                        && (PersonHistory.valid_from h <=? timestamp)%Z
                        && (timestamp <? PersonHistory.valid_to h)%Z)
                  (tbl_person_history db)).
        { apply elem_of_covers. split; [done|]. split; [done|]. lia. }
        destruct (first_order_by_is_Some
                    (λ h, - PersonHistory.valid_from h)%Z _ _ Hcov) as [h' ->].
        simpl. eauto.
Qed.

Lemma state_at_coverage_witness :
  well_formed_calls null_default
    [mkCall snapshot_A None 10; mkCall snapshot_B None 30] empty_store
  ∧ clock_from 0 [mkCall snapshot_A None 10; mkCall snapshot_B None 30]
  ∧ current_of 1 store_AB = [row_B]
  ∧ get_person_history 1 store_AB = [history_A]
  ∧ get_person_as_of 1 9 store_AB = None
  ∧ (is_Some (get_person_as_of 1 10 store_AB)
     ↔ (match get_person_history 1 store_AB with
        | [] => Person.created_at row_B
        | h :: _ => PersonHistory.valid_from h
        end ≤ 10)%Z).
Proof.
  assert (Hclock : clock_from 0
            [mkCall snapshot_A None 10; mkCall snapshot_B None 30])
    by (simpl; lia).
  assert (Hcur : current_of 1 store_AB = [row_B]) by (vm_compute; reflexivity).
  assert (Hcalls : well_formed_calls null_default
            [mkCall snapshot_A None 10; mkCall snapshot_B None 30] empty_store)
    by well_formed_tac.
  split; [exact Hcalls|]. split; [exact Hclock|]. split; [exact Hcur|].
  split; [vm_compute; reflexivity|]. split; [vm_compute; reflexivity|].
  exact (state_at_coverage null_default
           [mkCall snapshot_A None 10; mkCall snapshot_B None 30] 0%Z 1%Z
           row_B 10%Z Hcalls Hclock Hcur).
Defined.

(** X13. With clock readings that do not go back, after any sequence of
    calls on the empty database, each on a snapshot of attribute keys and
    with a change set of the table, every history record answers for its own
    interval: the state of its group as of a time in [valid_from, valid_to)
    is the copy of the attributes it holds. *)
Theorem history_answers (column_default : string → value)
    (calls : list call) (start : Z) (h : PersonHistory.t) (timestamp : Z) :
  well_formed_calls column_default calls empty_store →
  clock_from start calls →
  h ∈ tbl_person_history (apply_all column_default calls empty_store) →
  (PersonHistory.valid_from h ≤ timestamp < PersonHistory.valid_to h)%Z →
  get_person_as_of (PersonHistory.group_id h) timestamp
    (apply_all column_default calls empty_store)
  = Some (dict_of_history h).
Proof.
  intros _ Hclock Hh Ht.
  destruct (reachable_invariants column_default calls start Hclock)
    as [Hinv Htemp].
  set (db := apply_all column_default calls empty_store) in *.
  set (g := PersonHistory.group_id h).
  assert (Hin : h ∈ history_of g db) by (by apply elem_of_history_of).
  destruct (Htemp g) as [Hnil|(p & Hp & Hchain)];
    [rewrite Hnil in Hin; by apply elem_of_nil in Hin|].
  pose proof (current_of_singleton db g p Hinv Hp) as Hcur.
  destruct (chained_bounds _ _ h Hchain Hin) as [_ Hlast].
  rewrite get_person_as_of_no_current.
  2:{ intros c Hc (Hcg & Hcc & Hct).
      assert (Hcin : c ∈ current_of g db) by (by apply elem_of_current_of).
      rewrite Hcur in Hcin. apply list_elem_of_singleton in Hcin as ->. lia. }
  assert (Hcov : h ∈ List.filter
            (λ h, bool_decide (PersonHistory.group_id h = g)
                  && (PersonHistory.valid_from h <=? timestamp)%Z
                  && (timestamp <? PersonHistory.valid_to h)%Z)
            (tbl_person_history db)).
  { apply elem_of_covers. split; [done|]. split; [done|]. lia. }
  destruct (first_order_by_is_Some
              (λ h, - PersonHistory.valid_from h)%Z _ _ Hcov) as [h' Hh'].
  rewrite Hh'. simpl. f_equal. f_equal.
  apply first_order_by_Some in Hh' as [Hh' _].
  apply elem_of_covers in Hh' as (Hh'in & Hh'g & Hfrom' & Hto').
  symmetry.
  apply (chained_covers_eq (history_of g db) (Person.created_at p) timestamp
           h h' Hchain Hin); [by apply elem_of_history_of|lia|lia].
Qed.

Lemma history_answers_witness :
  well_formed_calls null_default
    [mkCall snapshot_A None 10; mkCall snapshot_B None 30] empty_store
  ∧ clock_from 0 [mkCall snapshot_A None 10; mkCall snapshot_B None 30]
  ∧ history_A ∈ tbl_person_history store_AB
  ∧ (PersonHistory.valid_from history_A ≤ 29
     < PersonHistory.valid_to history_A)%Z
  ∧ get_person_as_of (PersonHistory.group_id history_A) 29 store_AB
    = Some (dict_of_history history_A).
Proof.
  assert (Hclock : clock_from 0
            [mkCall snapshot_A None 10; mkCall snapshot_B None 30])
    by (simpl; lia).
  assert (Hh : history_A ∈ tbl_person_history store_AB)
    by (vm_compute; apply list_elem_of_here).
  assert (Ht : (PersonHistory.valid_from history_A ≤ 29
                < PersonHistory.valid_to history_A)%Z) by (simpl; lia).
  assert (Hcalls : well_formed_calls null_default
            [mkCall snapshot_A None 10; mkCall snapshot_B None 30] empty_store)
    by well_formed_tac.
  split; [exact Hcalls|].
  split; [exact Hclock|]. split; [exact Hh|]. split; [exact Ht|].
  exact (history_answers null_default
           [mkCall snapshot_A None 10; mkCall snapshot_B None 30] 0%Z
           history_A 29%Z Hcalls Hclock Hh Ht).
Defined.

Lemma one_live_record_per_group_witness :
  well_formed_calls null_default
    [mkCall snapshot_A None 10; mkCall snapshot_E None 20] empty_store
  ∧ 2%Z ∈ tbl_person_group store_AE
  ∧ current_of 2 store_AE = [row_E]
  ∧ ∃ p, current_of 2 store_AE = [p].
Proof.
  assert (Hcalls : well_formed_calls null_default
            [mkCall snapshot_A None 10; mkCall snapshot_E None 20] empty_store)
    by well_formed_tac.
  assert (Hin : 2%Z ∈ tbl_person_group store_AE)
    by (vm_compute; apply list_elem_of_further, list_elem_of_here).
  split; [exact Hcalls|].
  split; [exact Hin|]. split; [vm_compute; reflexivity|].
  exact (proj1 (one_live_record_per_group null_default
                  [mkCall snapshot_A None 10; mkCall snapshot_E None 20]
                  Hcalls)
           2%Z Hin).
Defined.

(** ** The search *)

Lemma filter_filter_bool {A} (f g : A → bool) (l : list A) :
  List.filter f (List.filter g l) = List.filter (λ x, g x && f x) l.
Proof.
  induction l as [|a l IH]; simpl; [done|].
  destruct (g a); simpl; [|done]. destruct (f a); by rewrite IH.
Qed.

Lemma filter_true {A} (l : list A) : List.filter (λ _, true) l = l.
Proof. induction l as [|a l IH]; simpl; by rewrite ?IH. Qed.

Lemma filter_passes (filter : value) (column : Person.t → value)
    (qs : list Person.t) :
  (if truthy filter
   then List.filter (λ p, exact (column p) filter) qs
   else qs)
  = List.filter (λ p, passes filter (column p)) qs.
Proof.
  unfold passes. destruct (truthy filter); [done|by rewrite filter_true].
Qed.

Lemma truthy_not_empty (v : value) :
  negb (bool_decide (v = None)) && negb (bool_decide (v = Some ""))
  = truthy v.
Proof.
  destruct v as [s|]; simpl; [|done].
  destruct (decide (s = "")) as [->|Hne]; [done|].
  rewrite (bool_decide_eq_false_2 (Some s = Some "")) by congruence.
  by rewrite (bool_decide_eq_false_2 (s = "")).
Qed.

Lemma search_persons_vitrine_eq (search_params : SearchParams) (db : Store) :
  search_persons_vitrine search_params db
  = if bool_decide
         (default 0 (offset search_params) < 0
          ∨ default 0 (offset search_params)
            + default 100 (limit search_params) < 0)%Z
    then NegativeIndexing
    else Rows (dict_of_person
                 <$> page search_params
                       (order_by Person.group_id
                          (List.filter (search_selects search_params)
                                       (tbl_person db)))).
Proof.
  unfold search_persons_vitrine, slice, page.
  rewrite truthy_not_empty.
  rewrite !(filter_passes _ _ _), !filter_filter_bool.
  case_bool_decide; [done|].
  do 5 f_equal. apply List.filter_ext. intros x. unfold search_selects.
  by rewrite !andb_assoc.
Qed.

Lemma passes_true (filter column : value) :
  passes filter column = true
  ↔ ∀ text, text ≠ "" → filter = Some text → column = Some text.
Proof.
  unfold passes, truthy, exact. destruct filter as [s|].
  - destruct (decide (s = "")) as [->|Hne].
    + rewrite (bool_decide_eq_true_2 ("" = "")) by done. simpl.
      split; [|done]. intros _ text Hne [= <-]. done.
    + rewrite (bool_decide_eq_false_2 (s = "")) by done. simpl.
      rewrite bool_decide_eq_true. split; [by intros -> text _ [= <-]|].
      intros H. by apply H.
  - split; [|done]. by intros _ text _ [=].
Qed.

Lemma search_selects_true (search_params : SearchParams) (p : Person.t) :
  search_selects search_params p = true ↔ search_predicate search_params p.
Proof.
  unfold search_selects, search_predicate.
  rewrite !andb_true_iff, !passes_true. split.
  - intros ((((((Hc & H1) & H2) & H3) & H4) & H5) & H6). split; [done|].
    intros text Hne. repeat split; eauto.
  - intros [Hc H]. repeat split; try done; intros text Hne; by apply H.
Qed.

Section sorted_by_facts.
Context {A : Type} (key : A → Z).

Lemma sorted_by_insert_by (x : A) (l : list A) :
  sorted_by key l → sorted_by key (insert_by key x l).
Proof.
  induction l as [|y l IH]; simpl; [by split; [intros ? ?%elem_of_nil|]|].
  intros [Hy Hl]. destruct (Z.leb_spec (key x) (key y)); simpl.
  - split; [|done]. intros z [->|Hz]%elem_of_cons; [done|].
    specialize (Hy z Hz). lia.
  - split; [|by apply IH]. intros z Hz.
    rewrite insert_by_perm in Hz.
    apply elem_of_cons in Hz as [->|Hz]; [lia|by apply Hy].
Qed.

Lemma sorted_by_order_by (l : list A) : sorted_by key (order_by key l).
Proof.
  induction l as [|x l IH]; simpl; [done|]. by apply sorted_by_insert_by.
Qed.

Lemma sorted_by_sublist (l k : list A) :
  l `sublist_of` k → sorted_by key k → sorted_by key l.
Proof.
  induction 1 as [|x l k Hsub IH|x l k Hsub IH]; simpl; [done| |].
  - intros [Hx Hk]. split; [|by apply IH].
    intros y Hy. apply Hx. by eapply elem_of_sublist.
  - intros [_ Hk]. by apply IH.
Qed.
End sorted_by_facts.

Lemma sorted_by_fmap {A B} (f : A → B) (key : B → Z) (l : list A) :
  sorted_by (key ∘ f) l → sorted_by key (f <$> l).
Proof.
  induction l as [|x l IH]; simpl; [done|].
  intros [Hx Hl]. split; [|by apply IH].
  intros y (z & -> & Hz)%list_elem_of_fmap. by apply Hx.
Qed.

Lemma page_sublist (search_params : SearchParams) (rows : list Person.t) :
  page search_params rows `sublist_of` rows.
Proof.
  unfold page. etrans; [apply sublist_drop|apply sublist_take].
Qed.

Lemma page_length (search_params : SearchParams) (rows : list Person.t) :
  (List.length (page search_params rows)
   ≤ Z.to_nat (default 100%Z (limit search_params)))%nat.
Proof.
  unfold page. rewrite length_drop, length_take. lia.
Qed.

(** X14. When the search returns rows, each is the dictionary of a live
    row of the table that equals every filter given and not empty; the
    rows are at most [limit] (100 when none is given), in ascending order
    of group; and under the invariant of the writes no group is listed
    twice. *)
Theorem search_results (search_params : SearchParams) (db : Store)
    (rows : list PersonDict.t) :
  search_persons_vitrine search_params db = Rows rows →
  (∀ d, d ∈ rows →
        ∃ p, p ∈ tbl_person db ∧ search_predicate search_params p
             ∧ d = dict_of_person p)
  ∧ (List.length rows ≤ Z.to_nat (default 100%Z (limit search_params)))%nat
  ∧ sorted_by PersonDict.group_id rows
  ∧ (store_inv db → NoDup (PersonDict.group_id <$> rows)).
Proof.
  rewrite search_persons_vitrine_eq. case_bool_decide; [done|].
  intros [= <-].
  set (qs := List.filter (search_selects search_params) (tbl_person db)).
  assert (Hsub : page search_params (order_by Person.group_id qs)
                   `sublist_of` order_by Person.group_id qs)
    by apply page_sublist.
  split; [|split; [|split]].
  - intros d (p & -> & Hp)%list_elem_of_fmap. exists p.
    apply (λ H, elem_of_sublist _ _ _ H Hsub) in Hp.
    rewrite order_by_perm in Hp.
    apply elem_of_filter_bool in Hp as [Hsel Hp].
    split; [done|]. split; [by apply search_selects_true|done].
  - rewrite length_fmap. apply page_length.
  - apply sorted_by_fmap.
    apply (sorted_by_sublist _ _ _ Hsub), sorted_by_order_by.
  - intros [Hkeys Hone]. rewrite <- list_fmap_compose.
    eapply sublist_NoDup; [|apply (fmap_sublist _ _ _ Hsub)].
    rewrite order_by_perm.
    eapply sublist_NoDup;
      [apply (NoDup_live_groups (tbl_person db));
       [by apply person_id_nodup|done]|].
    apply fmap_sublist. unfold qs.
    clear. induction (tbl_person db) as [|a l IH]; simpl; [done|].
    unfold search_selects at 1.
    destruct (Person.is_current a); simpl; [|done].
    match goal with
    | |- context [if ?b then _ else _] => destruct b
    end; [by apply sublist_skip|by apply sublist_cons].
Qed.

(** The search for Anna on the database of the two Annas. *)
Lemma search_results_witness :
  search_persons_vitrine
    (mkSearchParams {[ "first_name" := Some "Anna" ]} None None) store_AE
  = Rows [dict_of_person row_A; dict_of_person row_E]
  ∧ (∀ d, d ∈ [dict_of_person row_A; dict_of_person row_E] →
          ∃ p, p ∈ tbl_person store_AE
               ∧ search_predicate
                   (mkSearchParams {[ "first_name" := Some "Anna" ]} None None) p
               ∧ d = dict_of_person p)
  ∧ (List.length [dict_of_person row_A; dict_of_person row_E] ≤ 100)%nat
  ∧ sorted_by PersonDict.group_id [dict_of_person row_A; dict_of_person row_E]
  ∧ (store_inv store_AE →
     NoDup (PersonDict.group_id
              <$> [dict_of_person row_A; dict_of_person row_E])).
Proof.
  assert (Hrows :
    search_persons_vitrine
      (mkSearchParams {[ "first_name" := Some "Anna" ]} None None) store_AE
    = Rows [dict_of_person row_A; dict_of_person row_E])
    by (vm_compute; reflexivity).
  split; [exact Hrows|].
  exact (search_results _ store_AE _ Hrows).
Defined.

(** X15. The pages of a search follow one another: for an offset and two
    limits that are not negative, the page of the first limit followed by
    the page that starts where it ends is the page of the two limits
    together. *)
Theorem search_pages_compose (search_filters : gmap string value)
    (start limit1 limit2 : Z) (db : Store) :
  (0 ≤ start)%Z → (0 ≤ limit1)%Z → (0 ≤ limit2)%Z →
  ∃ rows1 rows2,
    search_persons_vitrine
      (mkSearchParams search_filters (Some limit1) (Some start)) db
    = Rows rows1
    ∧ search_persons_vitrine
        (mkSearchParams search_filters (Some limit2) (Some (start + limit1)%Z)) db
      = Rows rows2
    ∧ search_persons_vitrine
        (mkSearchParams search_filters (Some (limit1 + limit2)%Z) (Some start)) db
      = Rows (rows1 ++ rows2).
Proof.
  intros Hstart Hlimit1 Hlimit2.
  rewrite !search_persons_vitrine_eq. simpl.
  rewrite !bool_decide_eq_false_2 by lia.
  eexists _, _. split; [done|]. split; [done|]. f_equal.
  rewrite <- fmap_app. f_equal. unfold page. simpl.
  change (search_selects (mkSearchParams search_filters ?l ?o))
    with (search_selects (mkSearchParams search_filters None None)).
  set (qs := order_by Person.group_id _).
  replace (Z.to_nat (start + limit1 + limit2))
    with (Z.to_nat (start + (limit1 + limit2))) by (f_equal; lia).
  rewrite <- (drop_take_drop (take (Z.to_nat (start + (limit1 + limit2))) qs)
                (Z.to_nat start) (Z.to_nat (start + limit1))) by lia.
  rewrite take_take. do 3 f_equal. lia.
Qed.

Lemma search_pages_compose_witness :
  (0 ≤ 0)%Z ∧ (0 ≤ 1)%Z
  ∧ search_persons_vitrine (mkSearchParams ∅ (Some 1%Z) (Some 0%Z)) store_AE
    = Rows [dict_of_person row_A]
  ∧ search_persons_vitrine (mkSearchParams ∅ (Some 1%Z) (Some 1%Z)) store_AE
    = Rows [dict_of_person row_E]
  ∧ ∃ rows1 rows2,
      search_persons_vitrine (mkSearchParams ∅ (Some 1%Z) (Some 0%Z)) store_AE
      = Rows rows1
      ∧ search_persons_vitrine
          (mkSearchParams ∅ (Some 1%Z) (Some (0 + 1)%Z)) store_AE
        = Rows rows2
      ∧ search_persons_vitrine
          (mkSearchParams ∅ (Some (1 + 1)%Z) (Some 0%Z)) store_AE
        = Rows (rows1 ++ rows2).
Proof.
  assert (H0 : (0 ≤ 0)%Z) by lia. assert (H1 : (0 ≤ 1)%Z) by lia.
  split; [exact H0|]. split; [exact H1|].
  split; [vm_compute; reflexivity|]. split; [vm_compute; reflexivity|].
  exact (search_pages_compose ∅ 0%Z 1%Z 1%Z store_AE H0 H1 H1).
Defined.

(** X16. The search raises exactly when the offset, or the offset plus the
    limit, is negative (the defaults being 0 and 100).  When it does not
    raise, a limit that is not positive gives no row, and so does an
    offset at or past the number of rows of the table. *)
Theorem search_bounds (search_params : SearchParams) (db : Store) :
  (search_persons_vitrine search_params db = NegativeIndexing
   ↔ (default 0 (offset search_params) < 0
      ∨ default 0 (offset search_params)
        + default 100 (limit search_params) < 0)%Z)
  ∧ ((0 ≤ default 0 (offset search_params))%Z →
     (0 ≤ default 0 (offset search_params)
          + default 100 (limit search_params))%Z →
     (default 100 (limit search_params) ≤ 0)%Z
     ∨ (Z.of_nat (List.length (tbl_person db))
        ≤ default 0 (offset search_params))%Z →
     search_persons_vitrine search_params db = Rows []).
Proof.
  rewrite search_persons_vitrine_eq. split.
  - case_bool_decide; [done|]. split; [done|]. by intros ?.
  - intros Hoffset Hstop Hcase. rewrite bool_decide_eq_false_2 by lia.
    f_equal. unfold page.
    set (qs := order_by Person.group_id _).
    assert (Hlen : (List.length qs ≤ List.length (tbl_person db))%nat).
    { unfold qs. rewrite order_by_perm. apply List.filter_length_le. }
    rewrite drop_ge; [done|]. rewrite length_take. lia.
Qed.

Lemma search_bounds_witness :
  search_persons_vitrine (mkSearchParams ∅ None (Some (-1)%Z)) store_AE
  = NegativeIndexing
  ∧ search_persons_vitrine (mkSearchParams ∅ (Some (-3)%Z) (Some 5%Z)) store_AE
    = Rows []
  ∧ search_persons_vitrine (mkSearchParams ∅ (Some (-3)%Z) (Some 2%Z)) store_AE
    = NegativeIndexing.
Proof.
  pose proof (search_bounds (mkSearchParams ∅ None (Some (-1)%Z)) store_AE)
    as [Hneg _].
  pose proof (search_bounds (mkSearchParams ∅ (Some (-3)%Z) (Some 5%Z)) store_AE)
    as [_ Hempty].
  pose proof (search_bounds (mkSearchParams ∅ (Some (-3)%Z) (Some 2%Z)) store_AE)
    as [Hneg' _].
  split; [apply Hneg; simpl; lia|].
  split; [apply Hempty; simpl; lia|].
  apply Hneg'. simpl. lia.
Defined.

Lemma passes_None (column : value) : passes None column = true.
Proof. done. Qed.

(** X17. With the default offset and a limit of at least the number of
    rows of the table, the search returns every live row that equals the
    filters given and not empty; without filters these are the rows of
    [get_all_current_persons], in ascending order of group. *)
Theorem search_finds_all (search_filters : gmap string value) (max : Z)
    (db : Store) :
  (Z.of_nat (List.length (tbl_person db)) ≤ max)%Z →
  ∃ rows,
    search_persons_vitrine (mkSearchParams search_filters (Some max) None) db
    = Rows rows
    ∧ (∀ p, p ∈ tbl_person db →
            search_predicate (mkSearchParams search_filters (Some max) None) p →
            dict_of_person p ∈ rows)
    ∧ (search_filters = ∅ →
       rows = dict_of_person
                <$> order_by Person.group_id (get_all_current_persons db)).
Proof.
  intros Hmax. rewrite search_persons_vitrine_eq. simpl.
  rewrite bool_decide_eq_false_2 by lia.
  eexists. split; [done|].
  unfold page. simpl. rewrite drop_0.
  set (qs := List.filter _ (tbl_person db)).
  assert (Hlen : (List.length (order_by Person.group_id qs)
                  ≤ List.length (tbl_person db))%nat).
  { rewrite order_by_perm. apply List.filter_length_le. }
  rewrite take_ge by lia. split.
  - intros p Hp Hsel. apply list_elem_of_fmap_2. rewrite order_by_perm.
    apply elem_of_filter_bool. split; [|done]. by apply search_selects_true.
  - intros ->. do 2 f_equal. unfold qs, get_all_current_persons.
    apply List.filter_ext. intros p. unfold search_selects, get. simpl.
    rewrite !lookup_empty. simpl. by rewrite !passes_None, !andb_true_r.
Qed.

Lemma search_finds_all_witness :
  (Z.of_nat (List.length (tbl_person store_AB)) ≤ 2)%Z
  ∧ search_persons_vitrine (mkSearchParams ∅ (Some 2%Z) None) store_AB
    = Rows [dict_of_person row_B]
  ∧ ∃ rows,
      search_persons_vitrine (mkSearchParams ∅ (Some 2%Z) None) store_AB
      = Rows rows
      ∧ (∀ p, p ∈ tbl_person store_AB →
              search_predicate (mkSearchParams ∅ (Some 2%Z) None) p →
              dict_of_person p ∈ rows)
      ∧ ((∅ : gmap string value) = ∅ →
         rows = dict_of_person
                  <$> order_by Person.group_id (get_all_current_persons store_AB)).
Proof.
  assert (Hmax : (Z.of_nat (List.length (tbl_person store_AB)) ≤ 2)%Z)
    by (vm_compute; discriminate).
  split; [exact Hmax|]. split; [vm_compute; reflexivity|].
  exact (search_finds_all ∅ 2%Z store_AB Hmax).
Defined.

Lemma passes_delete (search_filters : gmap string value) (key key' : string)
    (column : value) :
  truthy (get search_filters key) = false →
  passes (get (delete key search_filters) key') column
  = passes (get search_filters key') column.
Proof.
  intros Hfalse. destruct (decide (key = key')) as [<-|Hne].
  - rewrite get_delete_eq. unfold passes. by rewrite Hfalse.
  - by rewrite get_delete_ne.
Qed.

(** X18. A filter that is [None] or the empty string is ignored: the
    search returns what it returns without the key.  So no search selects
    the rows whose middle name, or any other column, is [NULL] or
    empty. *)
Theorem empty_filter_ignored (search_params : SearchParams) (key : string)
    (db : Store) :
  truthy (get (filters search_params) key) = false →
  search_persons_vitrine
    (mkSearchParams (delete key (filters search_params))
       (limit search_params) (offset search_params)) db
  = search_persons_vitrine search_params db.
Proof.
  intros Hfalse. rewrite !search_persons_vitrine_eq. simpl.
  unfold page. simpl.
  assert (Hsel : List.filter
            (search_selects
               (mkSearchParams (delete key (filters search_params))
                  (limit search_params) (offset search_params)))
            (tbl_person db)
          = List.filter (search_selects search_params) (tbl_person db)).
  { apply List.filter_ext. intros p. unfold search_selects. simpl.
    by rewrite !(passes_delete _ _ _ _ Hfalse). }
  by rewrite Hsel.
Qed.

Lemma empty_filter_ignored_witness :
  truthy (get (filters (mkSearchParams {[ "middle_name" := Some "" ]}
                          None None)) "middle_name") = false
  ∧ search_persons_vitrine
      (mkSearchParams {[ "middle_name" := Some "" ]} None None) store_G
    = Rows [dict_of_person row_G]
  ∧ search_persons_vitrine
      (mkSearchParams {[ "middle_name" := Some "" ]} None None) store_A
    = Rows [dict_of_person row_A]
  ∧ search_persons_vitrine
      (mkSearchParams (delete "middle_name" {[ "middle_name" := Some "" ]})
         None None) store_A
    = search_persons_vitrine
        (mkSearchParams {[ "middle_name" := Some "" ]} None None) store_A.
Proof.
  assert (Hfalse :
    truthy (get (filters (mkSearchParams {[ "middle_name" := Some "" ]}
                            None None)) "middle_name") = false)
    by (vm_compute; reflexivity).
  split; [exact Hfalse|]. split; [vm_compute; reflexivity|].
  split; [vm_compute; reflexivity|].
  exact (empty_filter_ignored
           (mkSearchParams {[ "middle_name" := Some "" ]} None None)
           "middle_name" store_A Hfalse).
Defined.

(** ** The script runner *)

Lemma lstrip_app_nonspace (l : list N) (c : N) :
  isspace c = false → lstrip (l ++ [c]) = lstrip l ++ [c].
Proof.
  intros Hc. induction l as [|d l IH]; simpl; [by rewrite Hc|].
  by destruct (isspace d).
Qed.

Lemma rstrip_cons (c : N) (t : list N) :
  isspace c = false →
  rev (lstrip (rev (c :: t))) = c :: rev (lstrip (rev t)).
Proof.
  intros Hc. simpl. rewrite lstrip_app_nonspace by done.
  by rewrite rev_app_distr.
Qed.

Lemma lstrip_spaces (ws s : list N) :
  Forall (λ c, isspace c = true) ws → lstrip (ws ++ s) = lstrip s.
Proof. induction 1 as [|c ws Hc _ IH]; simpl; [done|]. by rewrite Hc. Qed.

Lemma lstrip_decomp (s : list N) :
  ∃ ws, s = ws ++ lstrip s ∧ Forall (λ c, isspace c = true) ws.
Proof.
  induction s as [|c s (ws & Hs & Hws)]; simpl; [by exists []|].
  destruct (isspace c) eqn:Hc; [|by exists []].
  exists (c :: ws). split; [by rewrite Hs at 1|by constructor].
Qed.

Lemma lstrip_head (s : list N) (c : N) :
  head (lstrip s) = Some c → isspace c = false.
Proof.
  induction s as [|d s IH]; simpl; [done|].
  destruct (isspace d) eqn:Hd; [done|]. by intros [= <-].
Qed.

Lemma strip_decomp (s : list N) :
  ∃ ws1 ws2, s = ws1 ++ strip s ++ ws2.
Proof.
  destruct (lstrip_decomp s) as (ws1 & Hs & _).
  destruct (lstrip_decomp (rev (lstrip s))) as (ws2 & Ht & _).
  exists ws1, (rev ws2). unfold strip. rewrite <- rev_app_distr, <- Ht.
  by rewrite rev_involutive.
Qed.

Lemma strip_last (s : list N) (c : N) :
  last (strip s) = Some c → isspace c = false.
Proof.
  unfold strip. destruct (lstrip (rev (lstrip s))) as [|d t] eqn:Ht; [done|].
  simpl. rewrite last_snoc. intros [= <-].
  apply (lstrip_head (rev (lstrip s))). by rewrite Ht.
Qed.

Lemma strip_head (s : list N) (c : N) :
  head (strip s) = Some c → isspace c = false.
Proof.
  unfold strip.
  destruct (lstrip s) as [|d t] eqn:Ht; [done|].
  assert (Hd : isspace d = false) by (apply (lstrip_head s); by rewrite Ht).
  rewrite rstrip_cons by done. by intros [= <-].
Qed.

Lemma split_not_nil (sep : N) (s : list N) : split sep s ≠ [].
Proof.
  induction s as [|c s IH]; simpl; [done|].
  destruct (c =? sep)%N; [done|]. by destruct (split sep s).
Qed.

Lemma split_no_sep (sep : N) (s piece : list N) :
  piece ∈ split sep s → sep ∉ piece.
Proof.
  revert piece. induction s as [|c s IH]; intros piece; simpl.
  - intros ->%list_elem_of_singleton. by intros ?%elem_of_nil.
  - destruct (N.eqb_spec c sep) as [->|Hne].
    + intros [->|Hin]%elem_of_cons; [by intros ?%elem_of_nil|by apply IH].
    + destruct (split sep s) as [|p ps] eqn:Hsplit;
        [by destruct (split_not_nil sep s)|].
      intros [->|Hin]%elem_of_cons.
      * intros [?|Hp]%elem_of_cons; [done|]. apply (IH p); [left|done].
      * apply IH. by right.
Qed.

Lemma split_head_prefix (sep : N) (s p : list N) (ps : list (list N)) :
  split sep s = p :: ps → ∃ b, s = p ++ b.
Proof.
  revert p ps. induction s as [|c s IH]; intros p ps; simpl.
  - intros [= <- <-]. by exists [].
  - destruct (c =? sep)%N; [intros [= <- <-]; by exists (c :: s)|].
    destruct (split sep s) as [|q qs]; [intros [= <- <-]; by exists s|].
    intros [= <- <-]. destruct (IH q qs eq_refl) as [b ->]. by exists b.
Qed.

Lemma split_infix (sep : N) (s piece : list N) :
  piece ∈ split sep s → ∃ a b, s = a ++ piece ++ b.
Proof.
  revert piece. induction s as [|c s IH]; intros piece; simpl.
  - intros ->%list_elem_of_singleton. by exists [], [].
  - destruct (c =? sep)%N.
    + intros [->|Hin]%elem_of_cons; [by exists [], (c :: s)|].
      destruct (IH piece Hin) as (a & b & ->). by exists (c :: a), b.
    + destruct (split sep s) as [|q qs] eqn:Hsplit;
        [by destruct (split_not_nil sep s)|].
      intros [->|Hin]%elem_of_cons.
      * destruct (split_head_prefix _ _ _ _ Hsplit) as [b ->].
        by exists [], b.
      * destruct (IH piece) as (a & b & ->); [by right|].
        by exists (c :: a), b.
Qed.

Section execute_sql_script_facts.
Context {Cursor Exception : Type}.
Variable cursor_execute : list N → Cursor → option Exception * Cursor.
Variable str_of : Exception → list N.

Lemma execute_statements_run (pieces : list (list N)) (cursor : Cursor)
    (stdout : list (list N)) :
  execute_statements cursor_execute str_of pieces cursor stdout
  = match run_until_error cursor_execute
            (List.filter (λ statement, negb (bool_decide (statement = []))
                                       && negb (startswith (codes "--") statement))
                         (strip <$> pieces))
            cursor
    with
    | (None, cursor') => (None, cursor', stdout)
    | (Some (statement, e), cursor') =>
        (Some e, cursor',
         stdout
         ++ [codes "Error executing statement: " ++ take 100 statement
             ++ codes "...";
             codes "Error: " ++ str_of e])
    end.
Proof.
  revert cursor. induction pieces as [|piece pieces IH]; intros cursor; [done|].
  rewrite fmap_cons. cbn [execute_statements List.filter].
  destruct (negb (bool_decide (strip piece = []))
            && negb (startswith (codes "--") (strip piece))); [|apply IH].
  cbn [run_until_error].
  destruct (cursor_execute (strip piece) cursor) as [[e|] cursor']; [done|].
  apply IH.
Qed.

Lemma run_until_error_app (statements rest : list (list N))
    (cursor cursor' : Cursor) :
  run_until_error cursor_execute statements cursor = (None, cursor') →
  run_until_error cursor_execute (statements ++ rest) cursor
  = run_until_error cursor_execute rest cursor'.
Proof.
  revert cursor. induction statements as [|s statements IH]; intros cursor;
    simpl; [by intros [= ->]|].
  destruct (cursor_execute s cursor) as [[e|] cursor1]; [done|]. apply IH.
Qed.
End execute_sql_script_facts.

Lemma elem_of_statements_of (sql_content statement : list N) :
  statement ∈ statements_of sql_content →
  statement ≠ []
  ∧ startswith (codes "--") statement = false
  ∧ ∃ piece, piece ∈ split 59 sql_content ∧ statement = strip piece.
Proof.
  unfold statements_of.
  intros [Hrun (piece & -> & Hpiece)%list_elem_of_fmap]%elem_of_filter_bool.
  apply andb_true_iff in Hrun
    as [Hne%negb_true_iff%bool_decide_eq_false Hstart%negb_true_iff].
  split; [done|]. split; [done|]. by exists piece.
Qed.

(** X19. The script is cut at every semicolon, each piece is stripped, and
    the pieces that are not empty and do not begin with two dashes are
    executed in order, up to the first that raises; on that one two lines
    are printed and the exception goes on.  A statement that is executed
    is a part of the script without a semicolon and without white space at
    either end. *)
Theorem executed_statements {Cursor Exception : Type}
    (cursor_execute : list N → Cursor → option Exception * Cursor)
    (str_of : Exception → list N) (sql_content : list N) (cursor : Cursor)
    (stdout : list (list N)) :
  execute_sql_script cursor_execute str_of sql_content cursor stdout
  = match run_until_error cursor_execute (statements_of sql_content) cursor with
    | (None, cursor') => (None, cursor', stdout)
    | (Some (statement, e), cursor') =>
        (Some e, cursor',
         stdout
         ++ [codes "Error executing statement: " ++ take 100 statement
             ++ codes "...";
             codes "Error: " ++ str_of e])
    end
  ∧ ∀ statement,
      statement ∈ statements_of sql_content →
      statement ≠ []
      ∧ (59%N ∉ statement)
      ∧ startswith (codes "--") statement = false
      ∧ (∀ c, head statement = Some c → isspace c = false)
      ∧ (∀ c, last statement = Some c → isspace c = false)
      ∧ ∃ before after, sql_content = before ++ statement ++ after.
Proof.
  split; [apply execute_statements_run|].
  intros statement (Hne & Hstart & piece & Hpiece & ->)%elem_of_statements_of.
  destruct (strip_decomp piece) as (ws1 & ws2 & Hstrip).
  split; [done|]. split; [|split; [done|split; [|split]]].
  - intros Hin. apply (split_no_sep _ _ _ Hpiece).
    rewrite Hstrip, !elem_of_app. auto.
  - apply strip_head.
  - apply strip_last.
  - destruct (split_infix _ _ _ Hpiece) as (a & b & ->).
    exists (a ++ ws1), (ws2 ++ b). rewrite Hstrip at 1.
    by rewrite <- !app_assoc.
Qed.

(** X20. When a statement raises, the statements after it are not
    executed: the call ends with that exception, with the cursor as the
    failing statement left it, and with two lines printed, the first
    showing at most 100 characters of the statement. *)
Theorem stops_at_first_error {Cursor Exception : Type}
    (cursor_execute : list N → Cursor → option Exception * Cursor)
    (str_of : Exception → list N) (sql_content : list N)
    (cursor cursor1 cursor2 : Cursor) (stdout : list (list N))
    (before : list (list N)) (statement : list N) (after : list (list N))
    (e : Exception) :
  statements_of sql_content = before ++ statement :: after →
  run_until_error cursor_execute before cursor = (None, cursor1) →
  cursor_execute statement cursor1 = (Some e, cursor2) →
  execute_sql_script cursor_execute str_of sql_content cursor stdout
  = (Some e, cursor2,
     stdout
     ++ [codes "Error executing statement: " ++ take 100 statement
         ++ codes "...";
         codes "Error: " ++ str_of e]).
Proof.
  intros Hstatements Hbefore Hraise.
  unfold execute_sql_script. rewrite execute_statements_run.
  fold (statements_of sql_content). rewrite Hstatements.
  rewrite (run_until_error_app _ _ _ _ _ Hbefore). simpl.
  by rewrite Hraise.
Qed.

Lemma stops_at_first_error_witness :
  statements_of (codes "a; boom ;b")
  = [codes "a"] ++ codes "boom" :: [codes "b"]
  ∧ run_until_error log_execute [codes "a"] [] = (None, [codes "a"])
  ∧ log_execute (codes "boom") [codes "a"] = (Some tt, [codes "a"])
  ∧ execute_sql_script log_execute (λ _, codes "failed")
      (codes "a; boom ;b") [] []
    = (Some tt, [codes "a"],
       [] ++ [codes "Error executing statement: " ++ take 100 (codes "boom")
              ++ codes "...";
              codes "Error: " ++ codes "failed"]).
Proof.
  assert (H1 : statements_of (codes "a; boom ;b")
               = [codes "a"] ++ codes "boom" :: [codes "b"])
    by (vm_compute; reflexivity).
  assert (H2 : run_until_error log_execute [codes "a"] [] = (None, [codes "a"]))
    by (vm_compute; reflexivity).
  assert (H3 : log_execute (codes "boom") [codes "a"] = (Some tt, [codes "a"]))
    by (vm_compute; reflexivity).
  split; [exact H1|]. split; [exact H2|]. split; [exact H3|].
  exact (stops_at_first_error log_execute (λ _, codes "failed")
           (codes "a; boom ;b") [] [codes "a"] [codes "a"] []
           [codes "a"] (codes "boom") [codes "b"] tt H1 H2 H3).
Defined.

Lemma executed_statements_witness :
  statements_of (codes "a; boom ;b") = [codes "a"; codes "boom"; codes "b"]
  ∧ codes "boom" ∈ statements_of (codes "a; boom ;b")
  ∧ codes "boom" ≠ []
  ∧ (59%N ∉ codes "boom")
  ∧ startswith (codes "--") (codes "boom") = false
  ∧ (∀ c, head (codes "boom") = Some c → isspace c = false)
  ∧ (∀ c, last (codes "boom") = Some c → isspace c = false)
  ∧ ∃ before after, codes "a; boom ;b" = before ++ codes "boom" ++ after.
Proof.
  assert (Hin : codes "boom" ∈ statements_of (codes "a; boom ;b"))
    by (vm_compute; apply list_elem_of_further, list_elem_of_here).
  split; [vm_compute; reflexivity|]. split; [exact Hin|].
  exact (proj2 (executed_statements log_execute (λ _, [])
                  (codes "a; boom ;b") [] []) (codes "boom") Hin).
Defined.

Lemma split_one (sep : N) (piece : list N) :
  sep ∉ piece → split sep piece = [piece].
Proof.
  induction piece as [|c piece IH]; simpl; [done|].
  intros Hnot. destruct (N.eqb_spec c sep) as [->|Hne]; [destruct Hnot; left|].
  rewrite IH; [done|]. intros Hin. apply Hnot. by right.
Qed.

Lemma split_app_sep (sep : N) (piece rest : list N) :
  sep ∉ piece → split sep (piece ++ sep :: rest) = piece :: split sep rest.
Proof.
  induction piece as [|c piece IH]; simpl; [by rewrite N.eqb_refl|].
  intros Hnot. destruct (N.eqb_spec c sep) as [->|Hne]; [destruct Hnot; left|].
  rewrite IH; [done|]. intros Hin. apply Hnot. by right.
Qed.

Lemma strip_comment (ws body : list N) :
  Forall (λ c, isspace c = true) ws →
  startswith (codes "--") (strip (ws ++ codes "--" ++ body)) = true.
Proof.
  intros Hws. unfold strip. rewrite lstrip_spaces by done.
  change (codes "--" ++ body) with (45%N :: 45%N :: body).
  change (lstrip (45%N :: 45%N :: body)) with (45%N :: 45%N :: body).
  by rewrite !rstrip_cons.
Qed.

(** X21. A piece of the script that begins, after white space, with two
    dashes is skipped whole, up to the next semicolon: whatever follows the
    comment before that semicolon, on the same line or on later lines, is
    not executed. *)
Theorem comment_swallows_statement {Cursor Exception : Type}
    (cursor_execute : list N → Cursor → option Exception * Cursor)
    (str_of : Exception → list N) (ws body rest : list N) (cursor : Cursor)
    (stdout : list (list N)) :
  Forall (λ c, isspace c = true) ws →
  (59%N ∉ body) →
  execute_sql_script cursor_execute str_of
    (ws ++ codes "--" ++ body ++ 59%N :: rest) cursor stdout
  = execute_sql_script cursor_execute str_of rest cursor stdout
  ∧ execute_sql_script cursor_execute str_of (ws ++ codes "--" ++ body)
      cursor stdout
    = (None, cursor, stdout).
Proof.
  intros Hws Hbody.
  assert (Hpiece : 59%N ∉ ws ++ codes "--" ++ body).
  { intros [Hin|[Hin|Hin]%elem_of_app]%elem_of_app; [| |done].
    - rewrite Forall_forall in Hws. specialize (Hws _ Hin).
      vm_compute in Hws. discriminate Hws.
    - apply list_elem_of_In in Hin. vm_compute in Hin.
      destruct Hin as [Hin|[Hin|[]]]; discriminate Hin. }
  unfold execute_sql_script. split.
  - replace (ws ++ codes "--" ++ body ++ 59%N :: rest)
      with ((ws ++ codes "--" ++ body) ++ 59%N :: rest)
      by (by rewrite <- !app_assoc).
    rewrite split_app_sep by done.
    cbn [execute_statements]. rewrite strip_comment by done.
    by rewrite andb_false_r.
  - rewrite split_one by done. cbn [execute_statements].
    rewrite strip_comment by done. by rewrite andb_false_r.
Qed.

(** A comment line before a statement costs the statement. *)
Lemma comment_swallows_statement_witness :
  Forall (λ c, isspace c = true) (codes "  ")
  ∧ (59%N ∉ codes " old table" ++ [10%N] ++ codes "DROP TABLE t")
  ∧ execute_sql_script log_execute (λ _, [])
      (codes "  " ++ codes "--"
       ++ (codes " old table" ++ [10%N] ++ codes "DROP TABLE t")
       ++ 59%N :: codes "CREATE TABLE t") [] []
    = (None, [codes "CREATE TABLE t"], [])
  ∧ execute_sql_script log_execute (λ _, [])
      (codes "  " ++ codes "--"
       ++ (codes " old table" ++ [10%N] ++ codes "DROP TABLE t")
       ++ 59%N :: codes "CREATE TABLE t") [] []
    = execute_sql_script log_execute (λ _, []) (codes "CREATE TABLE t") [] [].
Proof.
  assert (Hws : Forall (λ c, isspace c = true) (codes "  "))
    by (repeat constructor).
  assert (Hbody : 59%N ∉ codes " old table" ++ [10%N] ++ codes "DROP TABLE t").
  { intros Hin. apply list_elem_of_In in Hin. vm_compute in Hin.
    repeat (destruct Hin as [Hin|Hin]; [discriminate Hin|]). exact Hin. }
  split; [exact Hws|]. split; [exact Hbody|].
  split; [vm_compute; reflexivity|].
  exact (proj1 (comment_swallows_statement log_execute (λ _, []) _ _
                  (codes "CREATE TABLE t") [] [] Hws Hbody)).
Defined.
